(** * temporalite: the server facade and its functional options

    A shallow embedding of [server.go] and of the option combinators of
    package [temporalite].

    - Go's in-place mutation of [*liteconfig.Config] is explicit state
      passing: a mutator is a function from the configuration before to the
      configuration after.
    - A call that leaves the package ([os.Stat], [sqlite.SetupSchema],
      [time.Now], [client.NewClient], ...) is a node of a program tree
      ([prog]); an interpreter runs the tree against an arbitrary handler of
      the calls and records, in order, every call with its answer.
    - A Go result pair [(v, err)] is a sum: [inl v] is [(v, nil)] and [inr e]
      is [(nil, e)].
    - [time.Time] is a number of nanoseconds on one time line and
      [time.Duration] a signed 64-bit number of nanoseconds. *)

From Stdlib Require Import ZArith Lia Bool.
From stdpp Require Import base strings list gmap.

Local Open Scope Z_scope.

(** ** Errors (Go's [error], [fmt.Errorf] with [%w], [os.IsNotExist]) *)

Inductive Errno := ENOENT | EACCES | ENOTDIR | EIO.

Inductive error :=
| errorString (s : string)                      (* errors.New(s) *)
| wrapError (msg : string) (err : error)        (* fmt.Errorf("...%w", err) *)
| PathError (Op Path : string) (Err : error)    (* *fs.PathError *)
| SyscallErrno (e : Errno).                     (* syscall.Errno *)

Definition Errno_Error (e : Errno) : string :=
  match e with
  | ENOENT => "no such file or directory"
  | EACCES => "permission denied"
  | ENOTDIR => "not a directory"
  | EIO => "input/output error"
  end.

Fixpoint Error (err : error) : string :=
  match err with
  | errorString s => s
  | wrapError msg _ => msg
  | PathError op path e => op +:+ " " +:+ path +:+ ": " +:+ Error e
  | SyscallErrno e => Errno_Error e
  end.

(** [errors.Unwrap]. *)
Definition Unwrap (err : error) : option error :=
  match err with
  | wrapError _ e => Some e
  | PathError _ _ e => Some e
  | _ => None
  end.

(** [fmt.Errorf(prefix + "%w", err)]: the message is the prefix followed by
    the cause's message, and the cause is kept for [Unwrap]. *)
Definition Errorf_w (prefix : string) (err : error) : error :=
  wrapError (prefix +:+ Error err) err.

(** [os.underlyingError] and [os.IsNotExist], on the errors [os.Stat]
    gives (a [*PathError] around an errno); the argument of [IsNotExist] is
    Go's possibly nil [error]. *)
Definition underlyingError (err : error) : error :=
  match err with
  | PathError _ _ e => e
  | _ => err
  end.

Definition IsNotExist (err : option error) : bool :=
  match err with
  | None => false
  | Some e =>
      match underlyingError e with
      | SyscallErrno ENOENT => true
      | _ => false
      end
  end.

(** ** [time] *)

Module time.
Definition Time := Z.
Definition Duration := Z.

Definition Nanosecond : Duration := 1.
Definition Second : Duration := 1000000000 * Nanosecond.
Definition Minute : Duration := 60 * Second.

Definition minDuration : Duration := - 2 ^ 63.
Definition maxDuration : Duration := 2 ^ 63 - 1.

(** [t.Sub(u)]: the duration [t - u], saturated at the least and the
    greatest [Duration]. *)
Definition Sub (t u : Time) : Duration :=
  if t - u <? minDuration then minDuration
  else if maxDuration <? t - u then maxDuration
  else t - u.
End time.

(** ** [context] *)

Module context.
(** What the package reads of a [context.Context]: the answer of
    [ctx.Deadline()], [Some d] for [(d, true)] and [None] for
    [(_, false)]. *)
Record Context := { Deadline : option time.Time }.
End context.

(** ** Handles of the objects of the wrapped server *)

Module log.
Inductive Logger := LoggerRef (id : nat).
End log.

Inductive Chan := ChanRef (id : nat).

(** ** [go.temporal.io/server/common/config] *)

Module config.
Record SQL := {
  PluginName : string;
  DatabaseName : string;
  ConnectAttributes : gmap string string
}.

(** [DataStore.SQL] is a pointer: [None] is [nil]. *)
Record DataStore := { DataStore_SQL : option SQL }.

Record Persistence := { DataStores : gmap string DataStore }.

Record ClusterMetadata := { CurrentClusterName : string }.

Record Authorization := { Authorizer : string; ClaimMapper : string }.

Record Global := { Global_Authorization : Authorization }.

Record PublicClient := { HostPort : string }.

Record Config := {
  Config_Global : Global;
  Config_Persistence : Persistence;
  Config_ClusterMetadata : ClusterMetadata;
  Config_PublicClient : PublicClient
}.

(** Indexing a Go map at an absent key gives the zero value. *)
Definition DataStore_zero : DataStore := {| DataStore_SQL := None |}.

Definition DataStores_index (m : gmap string DataStore) (k : string) : DataStore :=
  default DataStore_zero (m !! k).
End config.

(** ** [go.temporal.io/server/common/authorization] *)

Module authorization.
Inductive Authorizer := AuthorizerRef (id : nat).
Inductive ClaimMapper := ClaimMapperRef (id : nat).
End authorization.

(** ** [go.temporal.io/server/temporal] *)

Module temporal.
Inductive DynamicConfigClient := NoopClient.

Inductive ServerOption :=
| WithConfig (cfg : config.Config)
| ForServices (names : list string)
| WithLogger (logger : log.Logger)
| WithAuthorizer (a : authorization.Authorizer)
| WithClaimMapper (f : config.Config -> authorization.ClaimMapper)
| WithDynamicConfigClient (c : DynamicConfigClient)
| InterruptOn (interruptCh : Chan).

(** [temporal.Services]. *)
Definition Services : list string :=
  ["frontend"; "history"; "matching"; "worker"]%string.

(** The handle built by [temporal.NewServer(opts...)]. *)
Inductive Server := NewServer (opts : list ServerOption).
End temporal.

(** ** [go.temporal.io/server/schema/sqlite] *)

Module sqlite.
(** The descriptor built by
    [sqlite.NewNamespaceConfig(activeClusterName, namespace, global)]. *)
Inductive NamespaceConfig :=
  NewNamespaceConfig (activeClusterName namespace : string) (global : bool).
End sqlite.

(** ** [internal/liteconfig] *)

Module liteconfig.
(** The fields of [liteconfig.Config] that the package reads and writes.
    [InterruptOn] is a pointer: [None] is [nil]. *)
Record Config := {
  Ephemeral : bool;
  DatabaseFilePath : string;
  FrontendPort : Z;
  DynamicPorts : bool;
  Namespaces : list string;
  Logger : log.Logger;
  InterruptOn : option temporal.ServerOption
}.

Definition set_Ephemeral (v : bool) (c : Config) : Config :=
  {| Ephemeral := v; DatabaseFilePath := DatabaseFilePath c;
     FrontendPort := FrontendPort c; DynamicPorts := DynamicPorts c;
     Namespaces := Namespaces c; Logger := Logger c;
     InterruptOn := InterruptOn c |}.

Definition set_DatabaseFilePath (v : string) (c : Config) : Config :=
  {| Ephemeral := Ephemeral c; DatabaseFilePath := v;
     FrontendPort := FrontendPort c; DynamicPorts := DynamicPorts c;
     Namespaces := Namespaces c; Logger := Logger c;
     InterruptOn := InterruptOn c |}.

Definition set_FrontendPort (v : Z) (c : Config) : Config :=
  {| Ephemeral := Ephemeral c; DatabaseFilePath := DatabaseFilePath c;
     FrontendPort := v; DynamicPorts := DynamicPorts c;
     Namespaces := Namespaces c; Logger := Logger c;
     InterruptOn := InterruptOn c |}.

Definition set_DynamicPorts (v : bool) (c : Config) : Config :=
  {| Ephemeral := Ephemeral c; DatabaseFilePath := DatabaseFilePath c;
     FrontendPort := FrontendPort c; DynamicPorts := v;
     Namespaces := Namespaces c; Logger := Logger c;
     InterruptOn := InterruptOn c |}.

Definition set_Namespaces (v : list string) (c : Config) : Config :=
  {| Ephemeral := Ephemeral c; DatabaseFilePath := DatabaseFilePath c;
     FrontendPort := FrontendPort c; DynamicPorts := DynamicPorts c;
     Namespaces := v; Logger := Logger c;
     InterruptOn := InterruptOn c |}.

Definition set_Logger (v : log.Logger) (c : Config) : Config :=
  {| Ephemeral := Ephemeral c; DatabaseFilePath := DatabaseFilePath c;
     FrontendPort := FrontendPort c; DynamicPorts := DynamicPorts c;
     Namespaces := Namespaces c; Logger := v;
     InterruptOn := InterruptOn c |}.

Definition set_InterruptOn (v : option temporal.ServerOption) (c : Config) : Config :=
  {| Ephemeral := Ephemeral c; DatabaseFilePath := DatabaseFilePath c;
     FrontendPort := FrontendPort c; DynamicPorts := DynamicPorts c;
     Namespaces := Namespaces c; Logger := Logger c;
     InterruptOn := v |}.

(** The rest of the package, which [server.go] only calls: the name of
    the persistence store and the pure conversion to the server's
    configuration. *)
Record Package := {
  PersistenceStoreName : string;
  Convert : Config -> config.Config
}.
End liteconfig.

(** ** [go.temporal.io/sdk/client] *)

Module client.
Inductive TLSConfig := TLSRef (id : nat).
Inductive Interceptor := InterceptorRef (id : nat).
Inductive DataConverter := DataConverterRef (id : nat).
Inductive Client := ClientRef (id : nat).

Record ConnectionOptions := {
  TLS : option TLSConfig;
  Authority : string;
  DisableHealthCheck : bool;
  HealthCheckAttemptTimeout : time.Duration;
  HealthCheckTimeout : time.Duration;
  EnableKeepAliveCheck : bool;
  KeepAliveTime : time.Duration;
  KeepAliveTimeout : time.Duration
}.

Record Options := {
  HostPort : string;
  Namespace : string;
  Logger : option log.Logger;
  Identity : string;
  Converter : option DataConverter;
  Interceptors : list Interceptor;
  ConnectionOptions_ : ConnectionOptions
}.

(** A composite literal leaves the fields it does not name at their zero
    value. *)
Definition ConnectionOptions_zero : ConnectionOptions :=
  {| TLS := None; Authority := ""; DisableHealthCheck := false;
     HealthCheckAttemptTimeout := 0; HealthCheckTimeout := 0;
     EnableKeepAliveCheck := false; KeepAliveTime := 0;
     KeepAliveTimeout := 0 |}.

Definition Options_zero : Options :=
  {| HostPort := ""; Namespace := ""; Logger := None; Identity := "";
     Converter := None; Interceptors := [];
     ConnectionOptions_ := ConnectionOptions_zero |}.

Definition set_HostPort (v : string) (o : Options) : Options :=
  {| HostPort := v; Namespace := Namespace o; Logger := Logger o;
     Identity := Identity o; Converter := Converter o;
     Interceptors := Interceptors o;
     ConnectionOptions_ := ConnectionOptions_ o |}.

Definition set_Namespace (v : string) (o : Options) : Options :=
  {| HostPort := HostPort o; Namespace := v; Logger := Logger o;
     Identity := Identity o; Converter := Converter o;
     Interceptors := Interceptors o;
     ConnectionOptions_ := ConnectionOptions_ o |}.

Definition set_ConnectionOptions (v : ConnectionOptions) (o : Options) : Options :=
  {| HostPort := HostPort o; Namespace := Namespace o; Logger := Logger o;
     Identity := Identity o; Converter := Converter o;
     Interceptors := Interceptors o;
     ConnectionOptions_ := v |}.

Definition set_DisableHealthCheck (v : bool) (o : ConnectionOptions) : ConnectionOptions :=
  {| TLS := TLS o; Authority := Authority o; DisableHealthCheck := v;
     HealthCheckAttemptTimeout := HealthCheckAttemptTimeout o;
     HealthCheckTimeout := HealthCheckTimeout o;
     EnableKeepAliveCheck := EnableKeepAliveCheck o;
     KeepAliveTime := KeepAliveTime o;
     KeepAliveTimeout := KeepAliveTimeout o |}.

Definition set_HealthCheckTimeout (v : time.Duration) (o : ConnectionOptions) : ConnectionOptions :=
  {| TLS := TLS o; Authority := Authority o;
     DisableHealthCheck := DisableHealthCheck o;
     HealthCheckAttemptTimeout := HealthCheckAttemptTimeout o;
     HealthCheckTimeout := v;
     EnableKeepAliveCheck := EnableKeepAliveCheck o;
     KeepAliveTime := KeepAliveTime o;
     KeepAliveTimeout := KeepAliveTimeout o |}.
End client.

(** ** Option combinators ([ServerOption] and its implementation) *)

(** The interface [ServerOption]: one method, [apply], which takes a pointer
    to the configuration and mutates it. *)
Record ServerOption := { apply : liteconfig.Config -> liteconfig.Config }.

Record applyFuncContainer := {
  applyInternal : liteconfig.Config -> liteconfig.Config
}.

Definition applyFuncContainer_apply (fso : applyFuncContainer)
    (cfg : liteconfig.Config) : liteconfig.Config :=
  applyInternal fso cfg.

Definition newApplyFuncContainer
    (apply : liteconfig.Config -> liteconfig.Config) : applyFuncContainer :=
  {| applyInternal := apply |}.

(** [*applyFuncContainer] implements [ServerOption]. *)
Definition applyFuncContainer_ServerOption (fso : applyFuncContainer) : ServerOption :=
  {| apply := applyFuncContainer_apply fso |}.

Coercion applyFuncContainer_ServerOption : applyFuncContainer >-> ServerOption.

Definition WithLogger (logger : log.Logger) : ServerOption :=
  newApplyFuncContainer (fun cfg =>
    liteconfig.set_Logger logger cfg).

Definition WithDatabaseFilePath (filepath : string) : ServerOption :=
  newApplyFuncContainer (fun cfg =>
    let cfg := liteconfig.set_Ephemeral false cfg in
    liteconfig.set_DatabaseFilePath filepath cfg).

Definition WithPersistenceDisabled : ServerOption :=
  newApplyFuncContainer (fun cfg =>
    liteconfig.set_Ephemeral true cfg).

Definition WithFrontendPort (port : Z) : ServerOption :=
  newApplyFuncContainer (fun cfg =>
    liteconfig.set_FrontendPort port cfg).

Definition WithDynamicPorts : ServerOption :=
  newApplyFuncContainer (fun cfg =>
    liteconfig.set_DynamicPorts true cfg).

Definition WithNamespaces (namespaces : list string) : ServerOption :=
  newApplyFuncContainer (fun cfg =>
    liteconfig.set_Namespaces (liteconfig.Namespaces cfg ++ namespaces) cfg).

Definition WithInterruptOn (interruptCh : Chan) : ServerOption :=
  newApplyFuncContainer (fun cfg =>
    let option := temporal.InterruptOn interruptCh in
    liteconfig.set_InterruptOn (Some option) cfg).

(** [for _, opt := range opts { opt.apply(c) }] *)
Definition apply_opts (opts : list ServerOption) (c : liteconfig.Config) : liteconfig.Config :=
  fold_left (fun c opt => apply opt c) opts c.

(** ** Calls that leave the package, and programs over them *)

(** One constructor per external function that [server.go] calls; the index
    is the type of the answer.  [os.Stat]'s [FileInfo] is dropped, as the
    caller drops it. *)
Inductive ext : Type -> Type :=
| liteconfig_NewDefaultConfig : ext (liteconfig.Config + error)
| os_Stat (name : string) : ext (option error)
| sqlite_SetupSchema (cfg : option config.SQL) : ext (option error)
| sqlite_CreateNamespaces (cfg : option config.SQL)
    (namespaces : list sqlite.NamespaceConfig) : ext (option error)
| authorization_GetAuthorizerFromConfig (a : config.Authorization) :
    ext (authorization.Authorizer + error)
| authorization_GetClaimMapperFromConfig (a : config.Authorization)
    (logger : log.Logger) : ext (authorization.ClaimMapper + error)
| time_Now : ext time.Time
| client_NewClient (options : client.Options) : ext (client.Client + error)
| temporal_Server_Start (s : temporal.Server) : ext (option error)
| temporal_Server_Stop (s : temporal.Server) : ext unit.

Inductive prog (A : Type) : Type :=
| Ret (a : A)
| Call {X : Type} (e : ext X) (k : X -> prog A).

Arguments Ret {A} a.
Arguments Call {A X} e k.

Fixpoint prog_bind {A B} (k : A -> prog B) (m : prog A) : prog B :=
  match m with
  | Ret a => k a
  | Call e k' => Call e (fun x => prog_bind k (k' x))
  end.

#[global] Instance prog_ret : MRet prog := @Ret.
#[global] Instance prog_mbind : MBind prog := @prog_bind.

Definition call {X} (e : ext X) : prog X := Call e Ret.

(** A call together with the answer it got. *)
Inductive event :=
| Event {X : Type} (e : ext X) (x : X).

(** The world outside the package: any state [W] and any way of answering
    each call from it. *)
Definition handler (W : Type) := forall X, ext X -> W -> X * W.

Record outcome (W A : Type) := {
  result : A;
  final : W;
  trace : list event
}.

Arguments result {W A} o.
Arguments final {W A} o.
Arguments trace {W A} o.

Fixpoint run {W A} (h : handler W) (p : prog A) (w : W) : outcome W A :=
  match p with
  | Ret a => {| result := a; final := w; trace := [] |}
  | Call e k =>
      let '(x, w1) := h _ e w in
      let o := run h (k x) w1 in
      {| result := result o; final := final o;
         trace := Event e x :: trace o |}
  end.

(** What a trace shows of each external function: the arguments of its
    calls, oldest first. *)
Definition Stat_calls (tr : list event) : list string :=
  omap (fun ev => match ev with
                  | Event (os_Stat name) _ => Some name
                  | _ => None
                  end) tr.

Definition SetupSchema_calls (tr : list event) : list (option config.SQL) :=
  omap (fun ev => match ev with
                  | Event (sqlite_SetupSchema cfg) _ => Some cfg
                  | _ => None
                  end) tr.

Definition CreateNamespaces_calls (tr : list event)
    : list (option config.SQL * list sqlite.NamespaceConfig) :=
  omap (fun ev => match ev with
                  | Event (sqlite_CreateNamespaces cfg nss) _ => Some (cfg, nss)
                  | _ => None
                  end) tr.

Definition NewClient_calls (tr : list event) : list client.Options :=
  omap (fun ev => match ev with
                  | Event (client_NewClient options) _ => Some options
                  | _ => None
                  end) tr.

(** ** [server.go] *)

Record Server := {
  internal : temporal.Server;
  frontendHostPort : string;
  config_ : liteconfig.Config
}.

(** The four steps of [NewServer] that wrap the error they return. *)
Inductive Step :=
| SchemaSetup | NamespaceCreation | AuthorizerConstruction | ClaimMapperConstruction.

Definition step_prefix (s : Step) : string :=
  match s with
  | SchemaSetup => "error setting up schema: "
  | NamespaceCreation => "error creating namespaces: "
  | AuthorizerConstruction => "unable to instantiate authorizer: "
  | ClaimMapperConstruction => "unable to instantiate claim mapper: "
  end.

Section NewServer.
Variable lc : liteconfig.Package.

(** The loop that builds the namespace descriptors:
    [namespaces = append(namespaces, sqlite.NewNamespaceConfig(...))] for
    each [ns] of [c.Namespaces]. *)
Definition namespaceConfigs (currentClusterName : string) (nss : list string)
    : list sqlite.NamespaceConfig :=
  fold_left
    (fun namespaces ns =>
       namespaces ++ [sqlite.NewNamespaceConfig currentClusterName ns false])
    nss [].

(** [NewServer].  The schema branch is run first and yields the error it
    returns with, if any ([returned]); the rest of the body follows when it
    yields none. *)
Definition NewServer (opts : list ServerOption) : prog (Server + error) :=
  r ← call liteconfig_NewDefaultConfig;
  match r with
  | inr err => mret (inr err)
  | inl c =>
    let c := apply_opts opts c in
    let cfg := liteconfig.Convert lc c in
    let sqlConfig :=
      config.DataStore_SQL
        (config.DataStores_index
           (config.DataStores (config.Config_Persistence cfg))
           (liteconfig.PersistenceStoreName lc)) in
    returned ←
      (if liteconfig.Ephemeral c then
         err ← call (sqlite_SetupSchema sqlConfig);
         match err with
         | Some err => mret (Some (Errorf_w "error setting up schema: " err))
         | None => mret None
         end
       else
         err ← call (os_Stat (liteconfig.DatabaseFilePath c));
         if IsNotExist err then
           err ← call (sqlite_SetupSchema sqlConfig);
           match err with
           | Some err => mret (Some (Errorf_w "error setting up schema: " err))
           | None => mret None
           end
         else mret None);
    match returned with
    | Some err => mret (inr err)
    | None =>
      let namespaces :=
        namespaceConfigs
          (config.CurrentClusterName (config.Config_ClusterMetadata cfg))
          (liteconfig.Namespaces c) in
      err ← call (sqlite_CreateNamespaces sqlConfig namespaces);
      match err with
      | Some err => mret (inr (Errorf_w "error creating namespaces: " err))
      | None =>
        r ← call (authorization_GetAuthorizerFromConfig
                    (config.Global_Authorization (config.Config_Global cfg)));
        match r with
        | inr err =>
            mret (inr (Errorf_w "unable to instantiate authorizer: " err))
        | inl authorizer =>
          r ← call (authorization_GetClaimMapperFromConfig
                      (config.Global_Authorization (config.Config_Global cfg))
                      (liteconfig.Logger c));
          match r with
          | inr err =>
              mret (inr (Errorf_w "unable to instantiate claim mapper: " err))
          | inl claimMapper =>
            let serverOpts :=
              [ temporal.WithConfig cfg;
                temporal.ForServices temporal.Services;
                temporal.WithLogger (liteconfig.Logger c);
                temporal.WithAuthorizer authorizer;
                temporal.WithClaimMapper (fun _ => claimMapper);
                temporal.WithDynamicConfigClient temporal.NoopClient ] in
            let serverOpts :=
              match liteconfig.InterruptOn c with
              | Some interruptOn => serverOpts ++ [interruptOn]
              | None => serverOpts
              end in
            let s := {| internal := temporal.NewServer serverOpts;
                        frontendHostPort :=
                          config.HostPort (config.Config_PublicClient cfg);
                        config_ := c |} in
            mret (inl s)
          end
        end
      end
    end
  end.
End NewServer.

Definition Start (s : Server) : prog (option error) :=
  call (temporal_Server_Start (internal s)).

Definition Stop (s : Server) : prog unit :=
  call (temporal_Server_Stop (internal s)).

Definition timeoutFromContext (ctx : context.Context)
    (defaultTimeout : time.Duration) : prog time.Duration :=
  match context.Deadline ctx with
  | Some deadline =>
      now ← call time_Now;
      mret (time.Sub deadline now)
  | None => mret defaultTimeout
  end.

Definition NewClientWithOptions (s : Server) (ctx : context.Context)
    (options : client.Options) : prog (client.Client + error) :=
  let options := client.set_HostPort (frontendHostPort s) options in
  t ← timeoutFromContext ctx time.Minute;
  let options :=
    client.set_ConnectionOptions
      (client.set_HealthCheckTimeout t
         (client.set_DisableHealthCheck false client.ConnectionOptions_zero))
      options in
  call (client_NewClient options).

Definition NewClient (s : Server) (ctx : context.Context) (namespace : string)
    : prog (client.Client + error) :=
  NewClientWithOptions s ctx (client.set_Namespace namespace client.Options_zero).

(** ** Vocabulary of the properties *)

(** *** The documented combinators, as data

    [denote] maps each to the closure the source builds; [writes] lists the
    fields that closure assigns. *)

Inductive Combinator :=
| CWithLogger (logger : log.Logger)
| CWithDatabaseFilePath (filepath : string)
| CWithPersistenceDisabled
| CWithFrontendPort (port : Z)
| CWithDynamicPorts
| CWithNamespaces (namespaces : list string)
| CWithInterruptOn (interruptCh : Chan).

Definition denote (k : Combinator) : ServerOption :=
  match k with
  | CWithLogger logger => WithLogger logger
  | CWithDatabaseFilePath filepath => WithDatabaseFilePath filepath
  | CWithPersistenceDisabled => WithPersistenceDisabled
  | CWithFrontendPort port => WithFrontendPort port
  | CWithDynamicPorts => WithDynamicPorts
  | CWithNamespaces namespaces => WithNamespaces namespaces
  | CWithInterruptOn interruptCh => WithInterruptOn interruptCh
  end.

Inductive Field :=
| F_Ephemeral | F_DatabaseFilePath | F_FrontendPort | F_DynamicPorts
| F_Namespaces | F_Logger | F_InterruptOn.

#[global] Instance Field_eq_dec : EqDecision Field.
Proof. solve_decision. Defined.

Definition Field_type (f : Field) : Type :=
  match f with
  | F_Ephemeral => bool
  | F_DatabaseFilePath => string
  | F_FrontendPort => Z
  | F_DynamicPorts => bool
  | F_Namespaces => list string
  | F_Logger => log.Logger
  | F_InterruptOn => option temporal.ServerOption
  end.

Definition get (f : Field) (c : liteconfig.Config) : Field_type f :=
  match f with
  | F_Ephemeral => liteconfig.Ephemeral c
  | F_DatabaseFilePath => liteconfig.DatabaseFilePath c
  | F_FrontendPort => liteconfig.FrontendPort c
  | F_DynamicPorts => liteconfig.DynamicPorts c
  | F_Namespaces => liteconfig.Namespaces c
  | F_Logger => liteconfig.Logger c
  | F_InterruptOn => liteconfig.InterruptOn c
  end.

Definition writes (k : Combinator) : list Field :=
  match k with
  | CWithLogger _ => [F_Logger]
  | CWithDatabaseFilePath _ => [F_Ephemeral; F_DatabaseFilePath]
  | CWithPersistenceDisabled => [F_Ephemeral]
  | CWithFrontendPort _ => [F_FrontendPort]
  | CWithDynamicPorts => [F_DynamicPorts]
  | CWithNamespaces _ => [F_Namespaces]
  | CWithInterruptOn _ => [F_InterruptOn]
  end.

(** No combinator of [ks] assigns field [f]. *)
Definition untouched (f : Field) (ks : list Combinator) : bool :=
  forallb (fun k => bool_decide (f ∉ writes k)) ks.

(** *** Persistence modes *)

Inductive PersistenceMode :=
| InMemory
| FileBacked (path : string).

(** When a mode is the active one of a configuration, as [NewServer] reads
    it: the flag alone selects the in-memory store, and the path counts
    only with the flag off. *)
Definition mode_active (m : PersistenceMode) (c : liteconfig.Config) : Prop :=
  match m with
  | InMemory => liteconfig.Ephemeral c = true
  | FileBacked path =>
      liteconfig.Ephemeral c = false /\ liteconfig.DatabaseFilePath c = path
  end.

Definition mode_of (c : liteconfig.Config) : PersistenceMode :=
  if liteconfig.Ephemeral c then InMemory
  else FileBacked (liteconfig.DatabaseFilePath c).

(** The mode a combinator asks for, if it asks for one. *)
Definition requested_mode (k : Combinator) : option PersistenceMode :=
  match k with
  | CWithPersistenceDisabled => Some InMemory
  | CWithDatabaseFilePath filepath => Some (FileBacked filepath)
  | _ => None
  end.

(** The mode asked for last in [ks], or [m] when none asks. *)
Definition last_requested (m : PersistenceMode) (ks : list Combinator) : PersistenceMode :=
  fold_left (fun m k => default m (requested_mode k)) ks m.

(** *** Reading [NewServer] in pieces

    The same text as the body of [NewServer], named so that a run can be
    followed one piece at a time. *)

Definition sqlConfig_of (lc : liteconfig.Package) (c : liteconfig.Config)
    : option config.SQL :=
  config.DataStore_SQL
    (config.DataStores_index
       (config.DataStores (config.Config_Persistence (liteconfig.Convert lc c)))
       (liteconfig.PersistenceStoreName lc)).

Definition currentClusterName_of (lc : liteconfig.Package) (c : liteconfig.Config)
    : string :=
  config.CurrentClusterName (config.Config_ClusterMetadata (liteconfig.Convert lc c)).

Definition schema_branch (lc : liteconfig.Package) (c : liteconfig.Config)
    : prog (option error) :=
  if liteconfig.Ephemeral c then
    err ← call (sqlite_SetupSchema (sqlConfig_of lc c));
    match err with
    | Some err => mret (Some (Errorf_w "error setting up schema: " err))
    | None => mret None
    end
  else
    err ← call (os_Stat (liteconfig.DatabaseFilePath c));
    if IsNotExist err then
      err ← call (sqlite_SetupSchema (sqlConfig_of lc c));
      match err with
      | Some err => mret (Some (Errorf_w "error setting up schema: " err))
      | None => mret None
      end
    else mret None.

Definition finish (lc : liteconfig.Package) (c : liteconfig.Config)
    (authorizer : authorization.Authorizer)
    (claimMapper : authorization.ClaimMapper) : Server :=
  let cfg := liteconfig.Convert lc c in
  let serverOpts :=
    [ temporal.WithConfig cfg;
      temporal.ForServices temporal.Services;
      temporal.WithLogger (liteconfig.Logger c);
      temporal.WithAuthorizer authorizer;
      temporal.WithClaimMapper (fun _ => claimMapper);
      temporal.WithDynamicConfigClient temporal.NoopClient ] in
  let serverOpts :=
    match liteconfig.InterruptOn c with
    | Some interruptOn => serverOpts ++ [interruptOn]
    | None => serverOpts
    end in
  {| internal := temporal.NewServer serverOpts;
     frontendHostPort := config.HostPort (config.Config_PublicClient cfg);
     config_ := c |}.

Definition after_schema (lc : liteconfig.Package) (c : liteconfig.Config)
    : prog (Server + error) :=
  let cfg := liteconfig.Convert lc c in
  err ← call (sqlite_CreateNamespaces (sqlConfig_of lc c)
                (namespaceConfigs (currentClusterName_of lc c)
                   (liteconfig.Namespaces c)));
  match err with
  | Some err => mret (inr (Errorf_w "error creating namespaces: " err))
  | None =>
    r ← call (authorization_GetAuthorizerFromConfig
                (config.Global_Authorization (config.Config_Global cfg)));
    match r with
    | inr err => mret (inr (Errorf_w "unable to instantiate authorizer: " err))
    | inl authorizer =>
      r ← call (authorization_GetClaimMapperFromConfig
                  (config.Global_Authorization (config.Config_Global cfg))
                  (liteconfig.Logger c));
      match r with
      | inr err => mret (inr (Errorf_w "unable to instantiate claim mapper: " err))
      | inl claimMapper => mret (inl (finish lc c authorizer claimMapper))
      end
    end
  end.

(** *** Failures seen in a trace *)

(** The step and the cause, when the event is one of the four steps
    answering with an error. *)
Definition failure_of (ev : event) : option (Step * error) :=
  match ev with
  | Event e x =>
      match e in ext X return X -> option (Step * error) with
      | sqlite_SetupSchema _ => fun x => pair SchemaSetup <$> x
      | sqlite_CreateNamespaces _ _ => fun x => pair NamespaceCreation <$> x
      | authorization_GetAuthorizerFromConfig _ => fun x =>
          match x with
          | inr err => Some (AuthorizerConstruction, err)
          | inl _ => None
          end
      | authorization_GetClaimMapperFromConfig _ _ => fun x =>
          match x with
          | inr err => Some (ClaimMapperConstruction, err)
          | inl _ => None
          end
      | _ => fun _ => None
      end x
  end.

Definition failures (tr : list event) : list (Step * error) :=
  omap failure_of tr.

Definition SetupSchema_errors (tr : list event) : list error :=
  omap (fun '(s, err) => match s with SchemaSetup => Some err | _ => None end)
       (failures tr).

(** Reading the failed step back from an error message. *)
Definition step_of_message (msg : string) : option Step :=
  if String.prefix (step_prefix SchemaSetup) msg then Some SchemaSetup
  else if String.prefix (step_prefix NamespaceCreation) msg then Some NamespaceCreation
  else if String.prefix (step_prefix AuthorizerConstruction) msg then Some AuthorizerConstruction
  else if String.prefix (step_prefix ClaimMapperConstruction) msg then Some ClaimMapperConstruction
  else None.

(** The handler [h] with every answer of [os.Stat] replaced by [ans]; the
    state moves as under [h]. *)
Definition with_Stat_answer {W} (ans : option error) (h : handler W) : handler W :=
  fun X e w =>
    match e in ext X return X * W -> X * W with
    | os_Stat _ => fun r => (ans, r.2)
    | _ => fun r => r
    end (h X e w).

(** The health-check timeouts handed to [client.NewClient]. *)
Definition HealthCheckTimeouts (tr : list event) : list time.Duration :=
  (fun o => client.HealthCheckTimeout (client.ConnectionOptions_ o))
    <$> NewClient_calls tr.

(** What the schema branch of [NewServer] yields for an answer of
    [sqlite.SetupSchema]. *)
Definition wrap_schema (err : option error) : option error :=
  match err with
  | Some err => Some (Errorf_w "error setting up schema: " err)
  | None => None
  end.

(** The event with the answer of [os.Stat] set to [nil]. *)
Definition silence_Stat (ev : event) : event :=
  match ev with
  | Event (os_Stat name) _ => Event (os_Stat name) None
  | ev => ev
  end.

(** *** Further readings of a trace *)

(** Which external function an event is a call of. *)
Inductive Kind :=
| K_NewDefaultConfig | K_Stat | K_SetupSchema | K_CreateNamespaces
| K_GetAuthorizer | K_GetClaimMapper | K_Now | K_NewClient | K_Start | K_Stop.

Definition kind_of (ev : event) : Kind :=
  match ev with
  | Event e _ =>
      match e with
      | liteconfig_NewDefaultConfig => K_NewDefaultConfig
      | os_Stat _ => K_Stat
      | sqlite_SetupSchema _ => K_SetupSchema
      | sqlite_CreateNamespaces _ _ => K_CreateNamespaces
      | authorization_GetAuthorizerFromConfig _ => K_GetAuthorizer
      | authorization_GetClaimMapperFromConfig _ _ => K_GetClaimMapper
      | time_Now => K_Now
      | client_NewClient _ => K_NewClient
      | temporal_Server_Start _ => K_Start
      | temporal_Server_Stop _ => K_Stop
      end
  end.

Definition kinds (tr : list event) : list Kind := kind_of <$> tr.

(** The arguments of the calls of [authorization.GetAuthorizerFromConfig]
    and [authorization.GetClaimMapperFromConfig]. *)
Definition GetAuthorizer_calls (tr : list event) : list config.Authorization :=
  omap (fun ev => match ev with
                  | Event (authorization_GetAuthorizerFromConfig a) _ => Some a
                  | _ => None
                  end) tr.

Definition GetClaimMapper_calls (tr : list event)
    : list (config.Authorization * log.Logger) :=
  omap (fun ev => match ev with
                  | Event (authorization_GetClaimMapperFromConfig a logger) _ =>
                      Some (a, logger)
                  | _ => None
                  end) tr.

(** The authorizers, claim mappers and clients that the calls answered
    with. *)
Definition Authorizer_answers (tr : list event)
    : list (authorization.Authorizer + error) :=
  omap (fun ev =>
          match ev with
          | Event e x =>
              match e in ext X
                    return X -> option (authorization.Authorizer + error) with
              | authorization_GetAuthorizerFromConfig _ => fun x => Some x
              | _ => fun _ => None
              end x
          end) tr.

Definition ClaimMapper_answers (tr : list event)
    : list (authorization.ClaimMapper + error) :=
  omap (fun ev =>
          match ev with
          | Event e x =>
              match e in ext X
                    return X -> option (authorization.ClaimMapper + error) with
              | authorization_GetClaimMapperFromConfig _ _ => fun x => Some x
              | _ => fun _ => None
              end x
          end) tr.

Definition NewClient_answers (tr : list event) : list (client.Client + error) :=
  omap (fun ev =>
          match ev with
          | Event e x =>
              match e in ext X return X -> option (client.Client + error) with
              | client_NewClient _ => fun x => Some x
              | _ => fun _ => None
              end x
          end) tr.

(** The options a facade's wrapped server was built from. *)
Definition server_options (s : Server) : list temporal.ServerOption :=
  match internal s with
  | temporal.NewServer opts => opts
  end.

(** *** Further readings of the combinators *)

(** The namespaces a combinator appends. *)
Definition namespace_arguments (k : Combinator) : list string :=
  match k with
  | CWithNamespaces namespaces => namespaces
  | _ => []
  end.

(** No field is assigned by both combinators. *)
Definition disjoint_writes (k1 k2 : Combinator) : bool :=
  forallb (fun f => bool_decide (f ∉ writes k2)) (writes k1).

(** The two option values agree on every field but [HostPort] and
    [ConnectionOptions]. *)
Definition same_but_address (o1 o2 : client.Options) : Prop :=
  client.Namespace o1 = client.Namespace o2 /\
  client.Logger o1 = client.Logger o2 /\
  client.Identity o1 = client.Identity o2 /\
  client.Converter o1 = client.Converter o2 /\
  client.Interceptors o1 = client.Interceptors o2.

(** ** A simulated outside, for running the code on concrete inputs *)

Module Sim.
(** What each external function answers; nothing outside changes. *)
Record World := {
  clock : time.Time;
  defaultConfig : liteconfig.Config + error;
  stat : string -> option error;
  setupSchema : option error;
  createNamespaces : option error;
  getAuthorizer : authorization.Authorizer + error;
  getClaimMapper : authorization.ClaimMapper + error;
  newClient : client.Client + error
}.

Definition answer : handler World :=
  fun X e w =>
    match e in ext X return X * World with
    | liteconfig_NewDefaultConfig => (defaultConfig w, w)
    | os_Stat name => (stat w name, w)
    | sqlite_SetupSchema _ => (setupSchema w, w)
    | sqlite_CreateNamespaces _ _ => (createNamespaces w, w)
    | authorization_GetAuthorizerFromConfig _ => (getAuthorizer w, w)
    | authorization_GetClaimMapperFromConfig _ _ => (getClaimMapper w, w)
    | time_Now => (clock w, w)
    | client_NewClient _ => (newClient w, w)
    | temporal_Server_Start _ => (None, w)
    | temporal_Server_Stop _ => (tt, w)
    end.

Definition sql (c : liteconfig.Config) : config.SQL :=
  {| config.PluginName := "sqlite";
     config.DatabaseName := liteconfig.DatabaseFilePath c;
     config.ConnectAttributes := ∅ |}.

Definition lc : liteconfig.Package :=
  {| liteconfig.PersistenceStoreName := "sqlite-default";
     liteconfig.Convert := fun c =>
       {| config.Config_Global :=
            {| config.Global_Authorization :=
                 {| config.Authorizer := ""; config.ClaimMapper := "" |} |};
          config.Config_Persistence :=
            {| config.DataStores :=
                 {[ "sqlite-default"%string :=
                      {| config.DataStore_SQL := Some (sql c) |} ]} |};
          config.Config_ClusterMetadata :=
            {| config.CurrentClusterName := "active" |};
          config.Config_PublicClient :=
            {| config.HostPort := "127.0.0.1:7233" |} |} |}.

Definition c0 : liteconfig.Config :=
  {| liteconfig.Ephemeral := false;
     liteconfig.DatabaseFilePath := "default.db";
     liteconfig.FrontendPort := 7233;
     liteconfig.DynamicPorts := false;
     liteconfig.Namespaces := [];
     liteconfig.Logger := log.LoggerRef 0;
     liteconfig.InterruptOn := None |}.

Definition missing (name : string) : option error :=
  Some (PathError "stat" name (SyscallErrno ENOENT)).

Definition denied (name : string) : option error :=
  Some (PathError "stat" name (SyscallErrno EACCES)).

(** Every call succeeds; no file exists yet; the clock reads 100 s. *)
Definition fresh : World :=
  {| clock := 100 * time.Second;
     defaultConfig := inl c0;
     stat := missing;
     setupSchema := None;
     createNamespaces := None;
     getAuthorizer := inl (authorization.AuthorizerRef 0);
     getClaimMapper := inl (authorization.ClaimMapperRef 0);
     newClient := inl (client.ClientRef 0) |}.

Definition with_stat (f : string -> option error) (w : World) : World :=
  {| clock := clock w; defaultConfig := defaultConfig w; stat := f;
     setupSchema := setupSchema w; createNamespaces := createNamespaces w;
     getAuthorizer := getAuthorizer w; getClaimMapper := getClaimMapper w;
     newClient := newClient w |}.

Definition with_setupSchema (r : option error) (w : World) : World :=
  {| clock := clock w; defaultConfig := defaultConfig w; stat := stat w;
     setupSchema := r; createNamespaces := createNamespaces w;
     getAuthorizer := getAuthorizer w; getClaimMapper := getClaimMapper w;
     newClient := newClient w |}.

Definition with_getAuthorizer (r : authorization.Authorizer + error) (w : World) : World :=
  {| clock := clock w; defaultConfig := defaultConfig w; stat := stat w;
     setupSchema := setupSchema w; createNamespaces := createNamespaces w;
     getAuthorizer := r; getClaimMapper := getClaimMapper w;
     newClient := newClient w |}.

(** The database file is there. *)
Definition existing : World := with_stat (fun _ => None) fresh.

(** [os.Stat] is refused. *)
Definition unreadable : World := with_stat denied fresh.

(** The schema cannot be applied. *)
Definition broken_schema : World :=
  with_setupSchema (Some (errorString "disk full")) fresh.

(** A conversion that configures no data store at all. *)
Definition lc_no_store : liteconfig.Package :=
  {| liteconfig.PersistenceStoreName := "sqlite-default";
     liteconfig.Convert := fun c =>
       {| config.Config_Global :=
            {| config.Global_Authorization :=
                 {| config.Authorizer := ""; config.ClaimMapper := "" |} |};
          config.Config_Persistence := {| config.DataStores := ∅ |};
          config.Config_ClusterMetadata :=
            {| config.CurrentClusterName := "active" |};
          config.Config_PublicClient :=
            {| config.HostPort := "127.0.0.1:7233" |} |} |}.

Definition with_defaultConfig (r : liteconfig.Config + error) (w : World) : World :=
  {| clock := clock w; defaultConfig := r; stat := stat w;
     setupSchema := setupSchema w; createNamespaces := createNamespaces w;
     getAuthorizer := getAuthorizer w; getClaimMapper := getClaimMapper w;
     newClient := newClient w |}.

Definition with_createNamespaces (r : option error) (w : World) : World :=
  {| clock := clock w; defaultConfig := defaultConfig w; stat := stat w;
     setupSchema := setupSchema w; createNamespaces := r;
     getAuthorizer := getAuthorizer w; getClaimMapper := getClaimMapper w;
     newClient := newClient w |}.

Definition with_newClient (r : client.Client + error) (w : World) : World :=
  {| clock := clock w; defaultConfig := defaultConfig w; stat := stat w;
     setupSchema := setupSchema w; createNamespaces := createNamespaces w;
     getAuthorizer := getAuthorizer w; getClaimMapper := getClaimMapper w;
     newClient := r |}.

Definition server : Server :=
  {| internal := temporal.NewServer [];
     frontendHostPort := "127.0.0.1:7233";
     config_ := c0 |}.

Definition supplied : client.Options :=
  {| client.HostPort := "example.org:1";
     client.Namespace := "orders";
     client.Logger := Some (log.LoggerRef 7);
     client.Identity := "worker-1";
     client.Converter := None;
     client.Interceptors := [client.InterceptorRef 3];
     client.ConnectionOptions_ :=
       {| client.TLS := Some (client.TLSRef 1);
          client.Authority := "example.org";
          client.DisableHealthCheck := true;
          client.HealthCheckAttemptTimeout := 5;
          client.HealthCheckTimeout := 9;
          client.EnableKeepAliveCheck := true;
          client.KeepAliveTime := 1;
          client.KeepAliveTimeout := 2 |} |}.
End Sim.

(** * Properties *)

(** ** Running programs *)

Lemma run_bind {W A B} (h : handler W) (m : prog A) (k : A -> prog B) w :
  run h (m ≫= k) w =
  let o1 := run h m w in
  let o2 := run h (k (result o1)) (final o1) in
  {| result := result o2; final := final o2; trace := trace o1 ++ trace o2 |}.
Proof.
  revert w. induction m as [a|X e k' IH]; intros w; cbn.
  - destruct (run h (k a) w); reflexivity.
  - destruct (h X e w) as [x w1]. cbn. unfold mbind in IH. rewrite IH. reflexivity.
Qed.

Lemma NewServer_pieces lc opts :
  NewServer lc opts =
  r ← call liteconfig_NewDefaultConfig;
  match r with
  | inr err => mret (inr err)
  | inl c0 =>
      let c := apply_opts opts c0 in
      returned ← schema_branch lc c;
      match returned with
      | Some err => mret (inr err)
      | None => after_schema lc c
      end
  end.
Proof. reflexivity. Qed.

(** ** The combinators *)

Lemma apply_opts_app opts1 opts2 c :
  apply_opts (opts1 ++ opts2) c = apply_opts opts2 (apply_opts opts1 c).
Proof. unfold apply_opts. apply fold_left_app. Qed.

Lemma apply_frame k f c :
  f ∉ writes k -> get f (apply (denote k) c) = get f c.
Proof.
  intros Hf. destruct k, f; try reflexivity; exfalso; apply Hf; cbn;
    repeat constructor.
Qed.

Lemma apply_opts_frame ks f c :
  untouched f ks = true -> get f (apply_opts (denote <$> ks) c) = get f c.
Proof.
  revert c. induction ks as [|k ks IH]; intros c Hks; [reflexivity|].
  cbn in Hks. apply andb_prop in Hks as [Hk Hks].
  apply bool_decide_eq_true in Hk.
  cbn. unfold apply_opts in IH. rewrite IH by assumption.
  apply apply_frame; assumption.
Qed.

Lemma mode_of_active c : mode_active (mode_of c) c.
Proof. unfold mode_of, mode_active. destruct (liteconfig.Ephemeral c); auto. Qed.

Lemma mode_active_unique m c : mode_active m c -> m = mode_of c.
Proof.
  unfold mode_of. destruct m as [|path]; cbn.
  - intros ->. reflexivity.
  - intros [-> ->]. reflexivity.
Qed.

Lemma mode_of_apply k c :
  mode_of (apply (denote k) c) = default (mode_of c) (requested_mode k).
Proof. destruct k; reflexivity. Qed.

Lemma mode_of_apply_opts ks c :
  mode_of (apply_opts (denote <$> ks) c) = last_requested (mode_of c) ks.
Proof.
  revert c. induction ks as [|k ks IH]; intros c; [reflexivity|].
  cbn. unfold apply_opts in IH. rewrite IH, mode_of_apply. reflexivity.
Qed.

Lemma namespaceConfigs_acc cl nss acc :
  fold_left
    (fun namespaces ns => namespaces ++ [sqlite.NewNamespaceConfig cl ns false])
    nss acc
  = acc ++ ((fun ns => sqlite.NewNamespaceConfig cl ns false) <$> nss).
Proof.
  revert acc. induction nss as [|ns nss IH]; intros acc; cbn.
  - symmetry. apply app_nil_r.
  - rewrite IH, <- app_assoc. reflexivity.
Qed.

Lemma namespaceConfigs_map cl nss :
  namespaceConfigs cl nss = (fun ns => sqlite.NewNamespaceConfig cl ns false) <$> nss.
Proof. unfold namespaceConfigs. apply namespaceConfigs_acc. Qed.

(** ** Runs of the pieces of [NewServer] *)

Section Runs.
Context {W : Type} (h : handler W) (lc : liteconfig.Package).

Lemma run_schema_branch_ephemeral c w :
  liteconfig.Ephemeral c = true ->
  run h (schema_branch lc c) w =
  let r := h _ (sqlite_SetupSchema (sqlConfig_of lc c)) w in
  {| result := wrap_schema r.1; final := r.2;
     trace := [Event (sqlite_SetupSchema (sqlConfig_of lc c)) r.1] |}.
Proof.
  intros E. unfold schema_branch. rewrite E. cbn.
  destruct (h _ _ w) as [[err|] w1]; reflexivity.
Qed.

Lemma run_schema_branch_file c w :
  liteconfig.Ephemeral c = false ->
  run h (schema_branch lc c) w =
  let s := h _ (os_Stat (liteconfig.DatabaseFilePath c)) w in
  if IsNotExist s.1 then
    let r := h _ (sqlite_SetupSchema (sqlConfig_of lc c)) s.2 in
    {| result := wrap_schema r.1; final := r.2;
       trace := [Event (os_Stat (liteconfig.DatabaseFilePath c)) s.1;
                 Event (sqlite_SetupSchema (sqlConfig_of lc c)) r.1] |}
  else
    {| result := None; final := s.2;
       trace := [Event (os_Stat (liteconfig.DatabaseFilePath c)) s.1] |}.
Proof.
  intros E. unfold schema_branch. rewrite E. cbn.
  destruct (h _ _ w) as [err0 w1]. cbn.
  destruct (IsNotExist err0); [|reflexivity]. cbn.
  destruct (h _ _ w1) as [[err|] w2]; reflexivity.
Qed.

(** After the schema branch: one call of [sqlite.CreateNamespaces], no
    file query, no schema setup. *)
Lemma after_schema_calls c w :
  let tr := trace (run h (after_schema lc c) w) in
  Stat_calls tr = [] /\ SetupSchema_calls tr = [] /\
  CreateNamespaces_calls tr =
    [(sqlConfig_of lc c,
      namespaceConfigs (currentClusterName_of lc c) (liteconfig.Namespaces c))] /\
  SetupSchema_errors tr = [].
Proof.
  unfold after_schema. cbn.
  destruct (h _ _ w) as [[err|] w1]; cbn; [auto|].
  destruct (h _ _ w1) as [[a|err] w2]; cbn; [|auto].
  destruct (h _ _ w2) as [[m|err] w3]; cbn; auto.
Qed.

(** After the schema branch, a failing step ends the run with its error
    wrapped under the step's prefix. *)
Lemma after_schema_failures c w step cause :
  (step, cause) ∈ failures (trace (run h (after_schema lc c) w)) ->
  step ≠ SchemaSetup /\
  result (run h (after_schema lc c) w) = inr (Errorf_w (step_prefix step) cause).
Proof.
  unfold after_schema. cbn.
  destruct (h _ _ w) as [[err|] w1]; cbn.
  { intros Hin. apply list_elem_of_singleton in Hin. inversion Hin; subst. auto. }
  destruct (h _ _ w1) as [[a|err] w2]; cbn.
  2:{ intros Hin. apply list_elem_of_singleton in Hin. inversion Hin; subst. auto. }
  destruct (h _ _ w2) as [[m|err] w3]; cbn.
  { intros Hin. inversion Hin. }
  intros Hin. apply list_elem_of_singleton in Hin. inversion Hin; subst. auto.
Qed.

Lemma after_schema_success c w s :
  result (run h (after_schema lc c) w) = inl s -> config_ s = c.
Proof.
  unfold after_schema. cbn.
  destruct (h _ _ w) as [[err|] w1]; cbn; [discriminate|].
  destruct (h _ _ w1) as [[a|err] w2]; cbn; [|discriminate].
  destruct (h _ _ w2) as [[m|err] w3]; cbn; [|discriminate].
  intros [= <-]. reflexivity.
Qed.
End Runs.

Lemma step_of_message_prefix step s :
  step_of_message (step_prefix step +:+ s) = Some step.
Proof. destruct step, s; reflexivity. Qed.

Lemma Sub_exact t u :
  time.minDuration <= t - u <= time.maxDuration -> time.Sub t u = t - u.
Proof.
  intros [Hlo Hhi]. unfold time.Sub.
  destruct (Z.ltb_spec (t - u) time.minDuration); [lia|].
  destruct (Z.ltb_spec time.maxDuration (t - u)); [lia|reflexivity].
Qed.

Lemma Sub_mono_bound t u b :
  t - u <= b -> time.minDuration <= b -> time.Sub t u <= b.
Proof.
  intros Hb Hmin. unfold time.Sub.
  destruct (Z.ltb_spec (t - u) time.minDuration); [assumption|].
  destruct (Z.ltb_spec time.maxDuration (t - u)); lia.
Qed.

Lemma Sub_lower t u :
  time.minDuration <= t - u -> t - u <= 0 -> time.Sub t u = t - u.
Proof.
  intros Hlo Hhi. apply Sub_exact. split; [assumption|].
  unfold time.maxDuration. lia.
Qed.

Section Client.
Context {W : Type} (h : handler W).

Lemma run_NewClientWithOptions s ctx options w :
  let t :=
    match context.Deadline ctx with
    | Some deadline => time.Sub deadline (h _ time_Now w).1
    | None => time.Minute
    end in
  NewClient_calls (trace (run h (NewClientWithOptions s ctx options) w)) =
  [ client.set_ConnectionOptions
      (client.set_HealthCheckTimeout t
         (client.set_DisableHealthCheck false client.ConnectionOptions_zero))
      (client.set_HostPort (frontendHostPort s) options) ].
Proof.
  unfold NewClientWithOptions, timeoutFromContext.
  destruct (context.Deadline ctx) as [d|]; cbn.
  - destruct (h _ time_Now w) as [now w1]. cbn.
    destruct (h _ _ w1) as [r w2]. reflexivity.
  - destruct (h _ _ w) as [r w2]. reflexivity.
Qed.
End Client.

(** ** What [NewServer] does once the default configuration is there *)

Section Construction.
Context {W : Type} (h : handler W) (lc : liteconfig.Package).

Lemma run_NewServer_config opts w c0 w1 :
  h _ liteconfig_NewDefaultConfig w = (inl c0, w1) ->
  let c := apply_opts opts c0 in
  let o1 := run h (schema_branch lc c) w1 in
  run h (NewServer lc opts) w =
  match result o1 with
  | Some err =>
      {| result := inr err; final := final o1;
         trace := Event liteconfig_NewDefaultConfig (inl c0) :: trace o1 |}
  | None =>
      let o2 := run h (after_schema lc c) (final o1) in
      {| result := result o2; final := final o2;
         trace := Event liteconfig_NewDefaultConfig (inl c0)
                    :: trace o1 ++ trace o2 |}
  end.
Proof.
  intros H0 c o1. rewrite NewServer_pieces.
  change (run h (call liteconfig_NewDefaultConfig ≫= ?k) w)
    with (let '(x, w1) := h _ liteconfig_NewDefaultConfig w in
          let o := run h (k x) w1 in
          {| result := result o; final := final o;
             trace := Event liteconfig_NewDefaultConfig x :: trace o |}).
  rewrite H0. cbn zeta. rewrite run_bind. cbn zeta. fold c. fold o1.
  destruct (result o1) as [err|]; cbn.
  - rewrite app_nil_r. reflexivity.
  - reflexivity.
Qed.

Lemma run_NewServer_no_config opts w err w1 :
  h _ liteconfig_NewDefaultConfig w = (inr err, w1) ->
  run h (NewServer lc opts) w =
  {| result := inr err; final := w1;
     trace := [Event liteconfig_NewDefaultConfig (inr err)] |}.
Proof.
  intros H0. rewrite NewServer_pieces.
  change (run h (call liteconfig_NewDefaultConfig ≫= ?k) w)
    with (let '(x, w1) := h _ liteconfig_NewDefaultConfig w in
          let o := run h (k x) w1 in
          {| result := result o; final := final o;
             trace := Event liteconfig_NewDefaultConfig x :: trace o |}).
  rewrite H0. reflexivity.
Qed.
End Construction.

Lemma Stat_calls_app tr1 tr2 :
  Stat_calls (tr1 ++ tr2) = Stat_calls tr1 ++ Stat_calls tr2.
Proof. apply omap_app. Qed.

Lemma SetupSchema_calls_app tr1 tr2 :
  SetupSchema_calls (tr1 ++ tr2) = SetupSchema_calls tr1 ++ SetupSchema_calls tr2.
Proof. apply omap_app. Qed.

Lemma CreateNamespaces_calls_app tr1 tr2 :
  CreateNamespaces_calls (tr1 ++ tr2) =
  CreateNamespaces_calls tr1 ++ CreateNamespaces_calls tr2.
Proof. apply omap_app. Qed.

Lemma failures_app tr1 tr2 :
  failures (tr1 ++ tr2) = failures tr1 ++ failures tr2.
Proof. apply omap_app. Qed.

(** What the whole run shows of the schema branch and of namespace
    creation, by the mode of the configuration and the answers of
    [os.Stat] and [sqlite.SetupSchema]. *)
Section Bootstrap.
Context {W : Type} (h : handler W) (lc : liteconfig.Package).
Variables (opts : list ServerOption) (w w1 : W) (c0 : liteconfig.Config).
Hypothesis H0 : h _ liteconfig_NewDefaultConfig w = (inl c0, w1).

Lemma bootstrap_ephemeral :
  let c := apply_opts opts c0 in
  let tr := trace (run h (NewServer lc opts) w) in
  let namespaces :=
    namespaceConfigs (currentClusterName_of lc c) (liteconfig.Namespaces c) in
  liteconfig.Ephemeral c = true ->
  Stat_calls tr = [] /\
  SetupSchema_calls tr = [sqlConfig_of lc c] /\
  CreateNamespaces_calls tr =
    match (h _ (sqlite_SetupSchema (sqlConfig_of lc c)) w1).1 with
    | Some _ => []
    | None => [(sqlConfig_of lc c, namespaces)]
    end /\
  SetupSchema_errors tr =
    match (h _ (sqlite_SetupSchema (sqlConfig_of lc c)) w1).1 with
    | Some err => [err]
    | None => []
    end.
Proof.
  intros c tr namespaces E. subst tr namespaces.
  rewrite (run_NewServer_config h lc opts w c0 w1 H0).
  fold c. rewrite (run_schema_branch_ephemeral h lc c w1 E). cbn zeta.
  destruct (h _ (sqlite_SetupSchema (sqlConfig_of lc c)) w1) as [[err|] w2];
    cbn [fst snd wrap_schema result final trace].
  - repeat split; reflexivity.
  - destruct (after_schema_calls h lc c w2) as (Hs & Hu & Hn & He).
    remember (trace (run h (after_schema lc c) w2)) as t2 eqn:Ht2. clear Ht2.
    unfold SetupSchema_errors, failures, Stat_calls, SetupSchema_calls,
      CreateNamespaces_calls in *.
    cbn. rewrite Hs, Hu, Hn, He. repeat split; reflexivity.
Qed.

Lemma bootstrap_file :
  let c := apply_opts opts c0 in
  let tr := trace (run h (NewServer lc opts) w) in
  let namespaces :=
    namespaceConfigs (currentClusterName_of lc c) (liteconfig.Namespaces c) in
  liteconfig.Ephemeral c = false ->
  let s := h _ (os_Stat (liteconfig.DatabaseFilePath c)) w1 in
  let r := h _ (sqlite_SetupSchema (sqlConfig_of lc c)) s.2 in
  Stat_calls tr = [liteconfig.DatabaseFilePath c] /\
  SetupSchema_calls tr =
    (if IsNotExist s.1 then [sqlConfig_of lc c] else []) /\
  CreateNamespaces_calls tr =
    (if IsNotExist s.1 then
       match r.1 with
       | Some _ => []
       | None => [(sqlConfig_of lc c, namespaces)]
       end
     else [(sqlConfig_of lc c, namespaces)]) /\
  SetupSchema_errors tr =
    (if IsNotExist s.1 then
       match r.1 with
       | Some err => [err]
       | None => []
       end
     else []).
Proof.
  intros c tr namespaces E. subst tr namespaces.
  rewrite (run_NewServer_config h lc opts w c0 w1 H0).
  fold c. rewrite (run_schema_branch_file h lc c w1 E). cbn zeta.
  destruct (h _ (os_Stat (liteconfig.DatabaseFilePath c)) w1) as [err0 w2].
  cbn [fst snd]. destruct (IsNotExist err0).
  - destruct (h _ (sqlite_SetupSchema (sqlConfig_of lc c)) w2) as [[err|] w3];
      cbn [fst snd wrap_schema result final trace].
    + repeat split; reflexivity.
    + destruct (after_schema_calls h lc c w3) as (Hs & Hu & Hn & He).
      remember (trace (run h (after_schema lc c) w3)) as t2 eqn:Ht2. clear Ht2.
      unfold SetupSchema_errors, failures, Stat_calls, SetupSchema_calls,
        CreateNamespaces_calls in *.
      cbn. rewrite Hs, Hu, Hn, He. repeat split; reflexivity.
  - cbn [fst snd wrap_schema result final trace].
    destruct (after_schema_calls h lc c w2) as (Hs & Hu & Hn & He).
    remember (trace (run h (after_schema lc c) w2)) as t2 eqn:Ht2. clear Ht2.
    unfold SetupSchema_errors, failures, Stat_calls, SetupSchema_calls,
      CreateNamespaces_calls in *.
    cbn. rewrite Hs, Hu, Hn, He. repeat split; reflexivity.
Qed.
End Bootstrap.

(** * The claims *)

(** C1. In [NewServer], with the configuration the options leave: when it is
    ephemeral, [sqlite.SetupSchema] is called (once, and no file is
    queried); when it is file-backed, [os.Stat] is asked about
    [DatabaseFilePath] and [sqlite.SetupSchema] is called if and only if the
    answer says the file does not exist; in particular it is skipped when
    the file exists. *)
Theorem NewServer_schema_setup_condition
    {W} (h : handler W) (lc : liteconfig.Package) (opts : list ServerOption)
    (w w1 : W) (c0 : liteconfig.Config) :
  h _ liteconfig_NewDefaultConfig w = (inl c0, w1) ->
  let c := apply_opts opts c0 in
  let tr := trace (run h (NewServer lc opts) w) in
  let answer := (h _ (os_Stat (liteconfig.DatabaseFilePath c)) w1).1 in
  (liteconfig.Ephemeral c = true ->
     SetupSchema_calls tr = [sqlConfig_of lc c] /\ Stat_calls tr = []) /\
  (liteconfig.Ephemeral c = false ->
     Stat_calls tr = [liteconfig.DatabaseFilePath c] /\
     (SetupSchema_calls tr = [sqlConfig_of lc c] <-> IsNotExist answer = true) /\
     (SetupSchema_calls tr = [] <-> IsNotExist answer = false) /\
     (answer = None -> SetupSchema_calls tr = [])).
Proof.
  intros H0 c tr answer. split; intros E.
  - destruct (bootstrap_ephemeral h lc opts w w1 c0 H0 E) as (Hs & Hu & _).
    auto.
  - destruct (bootstrap_file h lc opts w w1 c0 H0 E) as (Hs & Hu & _).
    fold c tr answer in Hs, Hu. split; [exact Hs|].
    rewrite Hu. destruct (IsNotExist answer) eqn:Ha.
    + repeat split; try discriminate; auto.
      intros ->. discriminate.
    + repeat split; try discriminate; auto.
Qed.

(** The file-backed default, no file yet: the schema is set up.  And the
    ephemeral mode sets it up without asking for any file. *)
Lemma NewServer_schema_setup_condition_witness :
  SetupSchema_calls (trace (run Sim.answer (NewServer Sim.lc []) Sim.fresh))
    = [Some (Sim.sql Sim.c0)] /\
  SetupSchema_calls (trace (run Sim.answer (NewServer Sim.lc []) Sim.existing))
    = [] /\
  Stat_calls
    (trace (run Sim.answer (NewServer Sim.lc [WithPersistenceDisabled]) Sim.existing))
    = [].
Proof.
  pose proof (NewServer_schema_setup_condition Sim.answer Sim.lc []
                Sim.fresh Sim.fresh Sim.c0 eq_refl) as [_ Hf].
  pose proof (NewServer_schema_setup_condition Sim.answer Sim.lc []
                Sim.existing Sim.existing Sim.c0 eq_refl) as [_ He].
  pose proof (NewServer_schema_setup_condition Sim.answer Sim.lc
                [WithPersistenceDisabled]
                Sim.existing Sim.existing Sim.c0 eq_refl) as [Hm _].
  destruct (Hf eq_refl) as (_ & [_ Hrun] & _).
  destruct (He eq_refl) as (_ & _ & _ & Hskip).
  destruct (Hm eq_refl) as [_ Hnostat].
  split; [|split].
  - exact (Hrun eq_refl).
  - exact (Hskip eq_refl).
  - exact Hnostat.
Defined.

Lemma after_schema_ignores_Stat {W} (h : handler W) lc c w ans :
  run (with_Stat_answer ans h) (after_schema lc c) w = run h (after_schema lc c) w
  /\ silence_Stat <$> trace (run h (after_schema lc c) w)
     = trace (run h (after_schema lc c) w).
Proof.
  unfold after_schema. cbn.
  destruct (h _ _ w) as [[err|] w1]; cbn; [auto|].
  destruct (h _ _ w1) as [[a|err] w2]; cbn; [|auto].
  destruct (h _ _ w2) as [[m|err] w3]; cbn; auto.
Qed.

(** C9. For a file-backed configuration, [NewServer] sets the schema up only
    when [os.Stat] fails with a does-not-exist error.  When it fails with
    another error, no schema setup is called and the construction goes on
    exactly as if [os.Stat] had answered that the file exists: same result,
    same final state, and the same calls with the same answers, the answer
    of [os.Stat] apart. *)
Theorem NewServer_stat_failure_skips_setup
    {W} (h : handler W) (lc : liteconfig.Package) (opts : list ServerOption)
    (w w1 w2 : W) (c0 : liteconfig.Config) (e : error) :
  h _ liteconfig_NewDefaultConfig w = (inl c0, w1) ->
  let c := apply_opts opts c0 in
  liteconfig.Ephemeral c = false ->
  h _ (os_Stat (liteconfig.DatabaseFilePath c)) w1 = (Some e, w2) ->
  let o := run h (NewServer lc opts) w in
  let o' := run (with_Stat_answer None h) (NewServer lc opts) w in
  (SetupSchema_calls (trace o) ≠ [] -> IsNotExist (Some e) = true) /\
  (IsNotExist (Some e) = false ->
     SetupSchema_calls (trace o) = [] /\
     result o = result o' /\ final o = final o' /\
     silence_Stat <$> trace o = trace o').
Proof.
  intros H0 c E Hstat o o'.
  destruct (bootstrap_file h lc opts w w1 c0 H0 E) as (_ & Hu & _).
  fold c in Hu. rewrite Hstat in Hu. cbn [fst] in Hu. fold o in Hu.
  split.
  { rewrite Hu. destruct (IsNotExist (Some e)); [reflexivity|congruence]. }
  intros Hne. rewrite Hne in Hu. split; [exact Hu|].
  assert (H0' : with_Stat_answer None h _ liteconfig_NewDefaultConfig w
                = (inl c0, w1)) by exact H0.
  assert (Hstat' : with_Stat_answer None h _
                     (os_Stat (liteconfig.DatabaseFilePath c)) w1
                   = (None, w2)).
  { unfold with_Stat_answer. rewrite Hstat. reflexivity. }
  subst o o'.
  rewrite (run_NewServer_config h lc opts w c0 w1 H0).
  rewrite (run_NewServer_config _ lc opts w c0 w1 H0').
  fold c.
  rewrite (run_schema_branch_file h lc c w1 E).
  rewrite (run_schema_branch_file _ lc c w1 E).
  cbn zeta. rewrite Hstat, Hstat'. cbn [fst snd]. rewrite Hne.
  cbn [IsNotExist result final trace].
  destruct (after_schema_ignores_Stat h lc c w2 None) as [-> Hsil].
  repeat split. cbn. f_equal. f_equal. exact Hsil.
Qed.

(** [os.Stat] is refused: the schema is left alone and the server is built
    as over an existing file. *)
Lemma NewServer_stat_failure_skips_setup_witness :
  SetupSchema_calls (trace (run Sim.answer (NewServer Sim.lc []) Sim.unreadable))
    = [] /\
  result (run Sim.answer (NewServer Sim.lc []) Sim.unreadable)
    = result (run (with_Stat_answer None Sim.answer) (NewServer Sim.lc [])
                Sim.unreadable).
Proof.
  destruct (NewServer_stat_failure_skips_setup Sim.answer Sim.lc []
              Sim.unreadable Sim.unreadable Sim.unreadable Sim.c0
              (PathError "stat" "default.db" (SyscallErrno EACCES))
              eq_refl eq_refl eq_refl) as [_ H].
  destruct (H eq_refl) as (Hskip & Hres & _).
  split; [exact Hskip|exact Hres].
Defined.

(** C6, as the code has it.  On every call of [NewServer] in which the
    default configuration is obtained and schema setup does not fail,
    [sqlite.CreateNamespaces] is called exactly once, whether schema setup
    ran or was skipped, with the SQL configuration of the converted
    configuration and one descriptor per configured namespace, each built
    from the converted configuration's current cluster name and the
    namespace name, in the order of the configuration. *)
Theorem NewServer_creates_namespaces
    {W} (h : handler W) (lc : liteconfig.Package) (opts : list ServerOption)
    (w w1 : W) (c0 : liteconfig.Config) :
  h _ liteconfig_NewDefaultConfig w = (inl c0, w1) ->
  let c := apply_opts opts c0 in
  let tr := trace (run h (NewServer lc opts) w) in
  SetupSchema_errors tr = [] ->
  CreateNamespaces_calls tr =
    [(sqlConfig_of lc c,
      (fun ns => sqlite.NewNamespaceConfig (currentClusterName_of lc c) ns false)
        <$> liteconfig.Namespaces c)].
Proof.
  intros H0 c tr Hok. rewrite <- namespaceConfigs_map.
  destruct (liteconfig.Ephemeral c) eqn:E.
  - destruct (bootstrap_ephemeral h lc opts w w1 c0 H0 E) as (_ & _ & Hn & He).
    fold c tr in Hn, He. rewrite Hn.
    destruct (h _ (sqlite_SetupSchema (sqlConfig_of lc c)) w1).1; congruence.
  - destruct (bootstrap_file h lc opts w w1 c0 H0 E) as (_ & _ & Hn & He).
    fold c tr in Hn, He. rewrite Hn.
    destruct (IsNotExist _); [|reflexivity].
    destruct (h _ (sqlite_SetupSchema (sqlConfig_of lc c)) _).1; congruence.
Qed.

(** Two namespaces over an existing database file: schema setup is skipped
    and both descriptors are handed over, in order. *)
Lemma NewServer_creates_namespaces_witness :
  CreateNamespaces_calls
    (trace (run Sim.answer
              (NewServer Sim.lc [WithNamespaces ["a"]; WithNamespaces ["b"]])
              Sim.existing))
  = [(Some (Sim.sql Sim.c0),
      [sqlite.NewNamespaceConfig "active" "a" false;
       sqlite.NewNamespaceConfig "active" "b" false])].
Proof.
  exact (NewServer_creates_namespaces Sim.answer Sim.lc
           [WithNamespaces ["a"]; WithNamespaces ["b"]]
           Sim.existing Sim.existing Sim.c0 eq_refl eq_refl).
Defined.

(** C6, as stated, fails: in ephemeral mode with a schema that cannot be
    applied, [NewServer] returns the schema error and never calls
    [sqlite.CreateNamespaces]. *)
Lemma NewServer_namespaces_not_on_every_call :
  let o := run Sim.answer
             (NewServer Sim.lc [WithPersistenceDisabled; WithNamespaces ["a"]])
             Sim.broken_schema in
  CreateNamespaces_calls (trace o) = [] /\
  result o = inr (Errorf_w "error setting up schema: " (errorString "disk full")).
Proof. split; reflexivity. Qed.

(** ** Failures *)

Lemma failures_NewDefaultConfig x tr :
  failures (Event liteconfig_NewDefaultConfig x :: tr) = failures tr.
Proof. reflexivity. Qed.

Lemma schema_branch_failures {W} (h : handler W) lc c w step cause :
  (step, cause) ∈ failures (trace (run h (schema_branch lc c) w)) ->
  step = SchemaSetup /\
  result (run h (schema_branch lc c) w) = Some (Errorf_w (step_prefix step) cause).
Proof.
  destruct (liteconfig.Ephemeral c) eqn:E.
  - rewrite (run_schema_branch_ephemeral h lc c w E). cbn zeta.
    destruct (h _ _ w) as [[err|] w1]; cbn.
    + intros Hin. apply list_elem_of_singleton in Hin. inversion Hin; subst. auto.
    + intros Hin. inversion Hin.
  - rewrite (run_schema_branch_file h lc c w E). cbn zeta.
    destruct (h _ _ w) as [err0 w1]. cbn [fst snd].
    destruct (IsNotExist err0); cbn.
    + destruct (h _ _ w1) as [[err|] w2]; cbn.
      * intros Hin. apply list_elem_of_singleton in Hin. inversion Hin; subst. auto.
      * intros Hin. inversion Hin.
    + intros Hin. inversion Hin.
Qed.

Lemma schema_branch_no_failure {W} (h : handler W) lc c w :
  result (run h (schema_branch lc c) w) = None ->
  failures (trace (run h (schema_branch lc c) w)) = [].
Proof.
  destruct (liteconfig.Ephemeral c) eqn:E.
  - rewrite (run_schema_branch_ephemeral h lc c w E). cbn zeta.
    destruct (h _ _ w) as [[err|] w1]; cbn; [discriminate|reflexivity].
  - rewrite (run_schema_branch_file h lc c w E). cbn zeta.
    destruct (h _ _ w) as [err0 w1]. cbn [fst snd].
    destruct (IsNotExist err0); cbn; [|reflexivity].
    destruct (h _ _ w1) as [[err|] w2]; cbn; [discriminate|reflexivity].
Qed.

(** C7. Whenever one of the four steps of [NewServer] (schema setup,
    namespace creation, authorizer construction, claim-mapper construction)
    answers with an error, [NewServer] returns no server and an error; that
    error wraps the step's error ([Unwrap] gives it back), its message is
    the step's own prefix followed by the cause's message, and the step can
    be read back from the message. *)
Theorem NewServer_failure_is_fatal
    {W} (h : handler W) (lc : liteconfig.Package) (opts : list ServerOption)
    (w : W) (step : Step) (cause : error) :
  let o := run h (NewServer lc opts) w in
  (step, cause) ∈ failures (trace o) ->
  exists err,
    result o = inr err /\
    Unwrap err = Some cause /\
    Error err = step_prefix step +:+ Error cause /\
    step_of_message (Error err) = Some step.
Proof.
  intros o Hin.
  assert (Hres : result o = inr (Errorf_w (step_prefix step) cause)).
  { subst o. destruct (h _ liteconfig_NewDefaultConfig w) as [[c0|err] w1] eqn:H0.
    - rewrite (run_NewServer_config h lc opts w c0 w1 H0) in Hin |- *.
      cbn zeta in *.
      destruct (result (run h (schema_branch lc (apply_opts opts c0)) w1))
        as [err|] eqn:Hr; cbn [result trace] in *.
      + rewrite failures_NewDefaultConfig in Hin.
        apply schema_branch_failures in Hin as [-> Hin].
        rewrite Hr in Hin. congruence.
      + rewrite failures_NewDefaultConfig, failures_app,
          (schema_branch_no_failure h lc _ w1 Hr) in Hin.
        apply after_schema_failures in Hin as [_ Hin]. exact Hin.
    - rewrite (run_NewServer_no_config h lc opts w err w1 H0) in Hin.
      cbn in Hin. inversion Hin. }
  eexists. split; [exact Hres|]. cbn [Errorf_w Unwrap Error].
  repeat split. apply step_of_message_prefix.
Qed.

(** The authorizer cannot be built: the error names that step. *)
Lemma NewServer_failure_is_fatal_witness :
  exists err,
    result (run Sim.answer (NewServer Sim.lc [])
              (Sim.with_getAuthorizer (inr (errorString "unknown authorizer"))
                 Sim.fresh))
    = inr err /\
    Unwrap err = Some (errorString "unknown authorizer") /\
    Error err = "unable to instantiate authorizer: unknown authorizer" /\
    step_of_message (Error err) = Some AuthorizerConstruction.
Proof.
  apply (NewServer_failure_is_fatal Sim.answer Sim.lc []
           (Sim.with_getAuthorizer (inr (errorString "unknown authorizer"))
              Sim.fresh)
           AuthorizerConstruction (errorString "unknown authorizer")).
  vm_compute. constructor.
Defined.

(** ** Options *)

Lemma NewServer_config {W} (h : handler W) lc opts w s :
  result (run h (NewServer lc opts) w) = inl s ->
  exists c0, (h _ liteconfig_NewDefaultConfig w).1 = inl c0 /\
             config_ s = apply_opts opts c0.
Proof.
  destruct (h _ liteconfig_NewDefaultConfig w) as [[c0|err] w1] eqn:H0.
  - rewrite (run_NewServer_config h lc opts w c0 w1 H0). cbn zeta.
    destruct (result (run h (schema_branch lc (apply_opts opts c0)) w1));
      cbn [result]; [discriminate|].
    intros Hs. apply after_schema_success in Hs. eauto.
  - rewrite (run_NewServer_no_config h lc opts w err w1 H0). discriminate.
Qed.

(** C4. [NewServer] applies the options to the default configuration in the
    order passed (the server it returns carries that configuration);
    applying a list is applying its elements left to right; the value of a
    field is the one left by the last combinator that writes it; and
    [WithPersistenceDisabled()] followed by [WithDatabaseFilePath("x.db")]
    gives a non-ephemeral configuration with path ["x.db"]. *)
Theorem options_apply_in_order_last_writer_wins
    (pre post : list Combinator) (k : Combinator) (f : Field)
    (c0 : liteconfig.Config) :
  (forall W (h : handler W) lc opts w s,
     result (run h (NewServer lc opts) w) = inl s ->
     exists d, (h _ liteconfig_NewDefaultConfig w).1 = inl d /\
               config_ s = apply_opts opts d) /\
  apply_opts (denote <$> pre ++ k :: post) c0
    = apply_opts (denote <$> post)
        (apply (denote k) (apply_opts (denote <$> pre) c0)) /\
  (untouched f post = true ->
   get f (apply_opts (denote <$> pre ++ k :: post) c0)
     = get f (apply (denote k) (apply_opts (denote <$> pre) c0))) /\
  (let c := apply_opts
              (denote <$> pre ++ [CWithPersistenceDisabled;
                                  CWithDatabaseFilePath "x.db"]) c0 in
   liteconfig.Ephemeral c = false /\ liteconfig.DatabaseFilePath c = "x.db").
Proof.
  split; [intros; eapply NewServer_config; eassumption|].
  assert (Hsplit : forall post',
             apply_opts (denote <$> pre ++ k :: post') c0
             = apply_opts (denote <$> post')
                 (apply (denote k) (apply_opts (denote <$> pre) c0))).
  { intros post'. rewrite fmap_app, apply_opts_app. reflexivity. }
  split; [apply Hsplit|]. split.
  - intros Hpost. rewrite Hsplit. apply apply_opts_frame. exact Hpost.
  - cbn zeta. rewrite fmap_app, apply_opts_app. split; reflexivity.
Qed.

(** A port set twice, then options on other fields: the second port
    stays. *)
Lemma options_apply_in_order_last_writer_wins_witness :
  liteconfig.FrontendPort
    (apply_opts
       [WithFrontendPort 1; WithFrontendPort 2; WithDynamicPorts;
        WithNamespaces ["a"]] Sim.c0) = 2 /\
  exists s,
    result (run Sim.answer
              (NewServer Sim.lc [WithPersistenceDisabled;
                                 WithDatabaseFilePath "x.db"])
              Sim.fresh) = inl s /\
    config_ s
    = apply_opts [WithPersistenceDisabled; WithDatabaseFilePath "x.db"] Sim.c0.
Proof.
  destruct (options_apply_in_order_last_writer_wins
              [CWithFrontendPort 1]
              [CWithDynamicPorts; CWithNamespaces ["a"]]
              (CWithFrontendPort 2) F_FrontendPort Sim.c0)
    as (Hnew & _ & Hlast & _).
  split.
  - exact (Hlast eq_refl).
  - destruct (result (run Sim.answer
                        (NewServer Sim.lc [WithPersistenceDisabled;
                                           WithDatabaseFilePath "x.db"])
                        Sim.fresh)) as [s|err] eqn:Hr; [|discriminate Hr].
    exists s. split; [reflexivity|].
    destruct (Hnew _ Sim.answer Sim.lc _ Sim.fresh s Hr) as (d & Hd & ->).
    injection Hd as <-. reflexivity.
Defined.

(** C8. [WithNamespaces] appends its arguments to the list the
    configuration already has; [WithNamespaces("a")] then
    [WithNamespaces("b")] over an empty list gives ["a"; "b"]. *)
Theorem WithNamespaces_is_cumulative
    (namespaces : list string) (c : liteconfig.Config) :
  liteconfig.Namespaces (apply (WithNamespaces namespaces) c)
    = liteconfig.Namespaces c ++ namespaces /\
  liteconfig.Namespaces
    (apply_opts [WithNamespaces ["a"]; WithNamespaces ["b"]]
       (liteconfig.set_Namespaces [] c))
    = ["a"; "b"]%string.
Proof. split; reflexivity. Qed.

(** C5. For every sequence of documented combinators applied to a default
    configuration: exactly one persistence mode is active in the result; it
    is the mode asked for last (the default's mode when none is asked for);
    and [NewServer] consults [DatabaseFilePath] (asks [os.Stat] about it)
    only when the result is not ephemeral. *)
Theorem combinators_preserve_persistence_invariant
    (ks : list Combinator) (c0 : liteconfig.Config) :
  let c := apply_opts (denote <$> ks) c0 in
  (exists m, mode_active m c /\ forall m', mode_active m' c -> m' = m) /\
  mode_active (last_requested (mode_of c0) ks) c /\
  xorb (liteconfig.Ephemeral c)
       (match mode_of c with FileBacked _ => true | InMemory => false end) = true /\
  (forall W (h : handler W) lc w,
     (h _ liteconfig_NewDefaultConfig w).1 = inl c0 ->
     Stat_calls (trace (run h (NewServer lc (denote <$> ks)) w)) =
       if liteconfig.Ephemeral c then [] else [liteconfig.DatabaseFilePath c]).
Proof.
  intros c. split; [|split; [|split]].
  - exists (mode_of c). split; [apply mode_of_active|].
    intros m'. apply mode_active_unique.
  - rewrite <- mode_of_apply_opts. apply mode_of_active.
  - unfold mode_of. destruct (liteconfig.Ephemeral c); reflexivity.
  - intros W h lc w H0.
    destruct (h _ liteconfig_NewDefaultConfig w) as [r w1] eqn:Hh.
    cbn in H0. subst r.
    destruct (liteconfig.Ephemeral c) eqn:E.
    + apply (bootstrap_ephemeral h lc _ w w1 c0 Hh E).
    + apply (bootstrap_file h lc _ w w1 c0 Hh E).
Qed.

(** A path, then the in-memory mode: the in-memory mode is the active one,
    the stale path is not consulted. *)
Lemma combinators_preserve_persistence_invariant_witness :
  mode_active InMemory
    (apply_opts [WithDatabaseFilePath "x.db"; WithPersistenceDisabled] Sim.c0) /\
  Stat_calls
    (trace (run Sim.answer
              (NewServer Sim.lc [WithDatabaseFilePath "x.db";
                                 WithPersistenceDisabled])
              Sim.fresh)) = [].
Proof.
  destruct (combinators_preserve_persistence_invariant
              [CWithDatabaseFilePath "x.db"; CWithPersistenceDisabled] Sim.c0)
    as (_ & Hlast & _ & Hstat).
  split; [exact Hlast|].
  exact (Hstat _ Sim.answer Sim.lc Sim.fresh eq_refl).
Defined.

(** ** The client factory *)

(** C2. Whatever options the caller supplies, [NewClientWithOptions] hands
    [client.NewClient] exactly one [Options] value: [HostPort] is the
    facade's frontend address, [ConnectionOptions] is a fresh value (health
    check enabled, the timeout taken from the context, every other field at
    its zero value, nothing of the supplied one kept), and every other field
    is the supplied one. *)
Theorem NewClientWithOptions_overrides_address_only
    {W} (h : handler W) (s : Server) (ctx : context.Context)
    (options : client.Options) (w : W) :
  exists t,
    NewClient_calls (trace (run h (NewClientWithOptions s ctx options) w)) =
    [ {| client.HostPort := frontendHostPort s;
         client.Namespace := client.Namespace options;
         client.Logger := client.Logger options;
         client.Identity := client.Identity options;
         client.Converter := client.Converter options;
         client.Interceptors := client.Interceptors options;
         client.ConnectionOptions_ :=
           {| client.TLS := None;
              client.Authority := "";
              client.DisableHealthCheck := false;
              client.HealthCheckAttemptTimeout := 0;
              client.HealthCheckTimeout := t;
              client.EnableKeepAliveCheck := false;
              client.KeepAliveTime := 0;
              client.KeepAliveTimeout := 0 |} |} ].
Proof. eexists. rewrite run_NewClientWithOptions. reflexivity. Qed.

(** C3. The health-check timeout handed to [client.NewClient] is
    [deadline.Sub(time.Now())] when the context has a deadline (the exact
    difference whenever it fits a [Duration]) and one minute when it has
    none; for a deadline set five seconds after a time that is not later
    than now, it is at most five seconds. *)
Theorem health_check_timeout_from_deadline
    {W} (h : handler W) (s : Server) (ctx : context.Context)
    (options : client.Options) (w : W) :
  let tr := trace (run h (NewClientWithOptions s ctx options) w) in
  let now := (h _ time_Now w).1 in
  (forall deadline,
     context.Deadline ctx = Some deadline ->
     HealthCheckTimeouts tr = [time.Sub deadline now] /\
     (time.minDuration <= deadline - now <= time.maxDuration ->
      HealthCheckTimeouts tr = [deadline - now])) /\
  (context.Deadline ctx = None -> HealthCheckTimeouts tr = [time.Minute]) /\
  (forall created,
     context.Deadline ctx = Some (created + 5 * time.Second) ->
     created <= now ->
     exists t, HealthCheckTimeouts tr = [t] /\ t <= 5 * time.Second).
Proof.
  intros tr now.
  assert (Hsome : forall deadline, context.Deadline ctx = Some deadline ->
                    HealthCheckTimeouts tr = [time.Sub deadline now]).
  { intros deadline Hd. unfold HealthCheckTimeouts. subst tr.
    rewrite run_NewClientWithOptions, Hd. reflexivity. }
  split; [|split].
  - intros deadline Hd. split; [auto|].
    intros Hfit. rewrite (Hsome _ Hd), Sub_exact by assumption. reflexivity.
  - intros Hd. unfold HealthCheckTimeouts. subst tr.
    rewrite run_NewClientWithOptions, Hd. reflexivity.
  - intros created Hd Hle. eexists. split; [apply Hsome; exact Hd|].
    apply Sub_mono_bound; [lia|].
    unfold time.minDuration, time.Second, time.Nanosecond. lia.
Qed.

(** A context made at 97 s with a 5 s timeout, used at 100 s: 2 s are
    left. *)
Lemma health_check_timeout_from_deadline_witness :
  HealthCheckTimeouts
    (trace (run Sim.answer
              (NewClientWithOptions Sim.server
                 {| context.Deadline := Some (97 * time.Second + 5 * time.Second) |}
                 Sim.supplied)
              Sim.fresh))
  = [2 * time.Second] /\
  HealthCheckTimeouts
    (trace (run Sim.answer
              (NewClientWithOptions Sim.server
                 {| context.Deadline := None |} Sim.supplied)
              Sim.fresh))
  = [time.Minute] /\
  exists t,
    HealthCheckTimeouts
      (trace (run Sim.answer
                (NewClientWithOptions Sim.server
                   {| context.Deadline := Some (97 * time.Second + 5 * time.Second) |}
                   Sim.supplied)
                Sim.fresh))
    = [t] /\ t <= 5 * time.Second.
Proof.
  destruct (health_check_timeout_from_deadline Sim.answer Sim.server
              {| context.Deadline := Some (97 * time.Second + 5 * time.Second) |}
              Sim.supplied Sim.fresh) as (Hsome & _ & Hfive).
  destruct (health_check_timeout_from_deadline Sim.answer Sim.server
              {| context.Deadline := None |}
              Sim.supplied Sim.fresh) as (_ & Hnone & _).
  split; [|split].
  - apply (Hsome _ eq_refl). vm_compute. split; discriminate.
  - exact (Hnone eq_refl).
  - apply (Hfive (97 * time.Second) eq_refl). vm_compute. discriminate.
Defined.

(** C10. With a deadline that has already passed, the timeout handed to
    [client.NewClient] is [deadline.Sub(time.Now())], which is zero or
    negative (the exact difference unless it is below the least
    [Duration]) and so is not the one-minute default; and
    [timeoutFromContext] returns its default without reading the clock
    exactly when the context has no deadline. *)
Theorem expired_deadline_gives_nonpositive_timeout
    {W} (h : handler W) (s : Server) (ctx : context.Context)
    (options : client.Options) (w : W) (deadline : time.Time) :
  let tr := trace (run h (NewClientWithOptions s ctx options) w) in
  let now := (h _ time_Now w).1 in
  context.Deadline ctx = Some deadline ->
  deadline <= now ->
  (exists t,
     HealthCheckTimeouts tr = [t] /\
     t = time.Sub deadline now /\
     t <= 0 /\
     t ≠ time.Minute /\
     (time.minDuration <= deadline - now -> t = deadline - now)) /\
  (forall ctx' defaultTimeout,
     timeoutFromContext ctx' defaultTimeout = mret defaultTimeout
     <-> context.Deadline ctx' = None).
Proof.
  intros tr now Hd Hle. split.
  - exists (time.Sub deadline now).
    assert (Hneg : time.Sub deadline now <= 0).
    { apply Sub_mono_bound; [lia|]. unfold time.minDuration. lia. }
    split; [|split; [reflexivity|split; [exact Hneg|split]]].
    + unfold HealthCheckTimeouts. subst tr.
      rewrite run_NewClientWithOptions, Hd. reflexivity.
    + intros Heq. rewrite Heq in Hneg. vm_compute in Hneg. apply Hneg. reflexivity.
    + intros Hlo. apply Sub_lower; [assumption|lia].
  - intros ctx' defaultTimeout. unfold timeoutFromContext.
    destruct (context.Deadline ctx'); split; try discriminate; reflexivity.
Qed.

(** A deadline at 98 s read at 100 s: the timeout is minus two seconds. *)
Lemma expired_deadline_gives_nonpositive_timeout_witness :
  exists t,
    HealthCheckTimeouts
      (trace (run Sim.answer
                (NewClientWithOptions Sim.server
                   {| context.Deadline := Some (98 * time.Second) |}
                   Sim.supplied)
                Sim.fresh))
    = [t] /\ t = -2 * time.Second.
Proof.
  destruct (expired_deadline_gives_nonpositive_timeout Sim.answer Sim.server
              {| context.Deadline := Some (98 * time.Second) |}
              Sim.supplied Sim.fresh (98 * time.Second) eq_refl)
    as [(t & Ht & _ & _ & _ & Hexact) _].
  - vm_compute. discriminate.
  - exists t. split; [exact Ht|]. rewrite Hexact; [reflexivity|].
    vm_compute. discriminate.
Defined.

(** * Further properties of the code *)

(** Following a run through every answer the outside can give; the goals
    left are the complete runs. *)
Ltac explore h :=
  repeat (cbn;
          match goal with
          | |- context [h ?X ?e ?w] =>
              let x := fresh "x" in
              let w' := fresh "w" in
              destruct (h X e w) as [x w'] eqn:?
          | |- context [match ?x with inl _ => _ | inr _ => _ end] =>
              is_var x; destruct x
          | |- context [match ?x with Some _ => _ | None => _ end] =>
              is_var x; destruct x
          | |- context [if liteconfig.Ephemeral ?c then _ else _] =>
              destruct (liteconfig.Ephemeral c) eqn:?
          | |- context [if IsNotExist ?x then _ else _] =>
              destruct (IsNotExist x) eqn:?
          end).

(** ** [NewServer]: which calls it makes, and when it stops *)

(** X1. When [liteconfig.NewDefaultConfig] fails, [NewServer] returns that
    very error (not wrapped) and makes no other call: the options are not
    applied to anything, no file is queried, no schema or namespace is
    touched. *)
Theorem NewServer_returns_config_error_as_is
    {W} (h : handler W) (lc : liteconfig.Package) (opts : list ServerOption)
    (w : W) (err : error) :
  (h _ liteconfig_NewDefaultConfig w).1 = inr err ->
  let o := run h (NewServer lc opts) w in
  result o = inr err /\
  kinds (trace o) = [K_NewDefaultConfig] /\
  final o = (h _ liteconfig_NewDefaultConfig w).2.
Proof.
  intros H0. destruct (h _ liteconfig_NewDefaultConfig w) as [r w1] eqn:Hh.
  cbn in H0. subst r. cbn zeta.
  rewrite (run_NewServer_no_config h lc opts w err w1 Hh). auto.
Qed.

Lemma NewServer_returns_config_error_as_is_witness :
  let w := Sim.with_defaultConfig (inr (errorString "no home directory")) Sim.fresh in
  result (run Sim.answer (NewServer Sim.lc [WithNamespaces ["a"]]) w)
    = inr (errorString "no home directory") /\
  kinds (trace (run Sim.answer (NewServer Sim.lc [WithNamespaces ["a"]]) w))
    = [K_NewDefaultConfig].
Proof.
  destruct (NewServer_returns_config_error_as_is Sim.answer Sim.lc
              [WithNamespaces ["a"]]
              (Sim.with_defaultConfig (inr (errorString "no home directory"))
                 Sim.fresh)
              (errorString "no home directory") eq_refl) as (Hr & Hk & _).
  split; [exact Hr|exact Hk].
Defined.

(** X2. [NewServer] returns a server if and only if the default
    configuration is obtained and none of the four steps answers with an
    error. *)
Theorem NewServer_succeeds_iff_no_step_fails
    {W} (h : handler W) (lc : liteconfig.Package) (opts : list ServerOption)
    (w : W) :
  let o := run h (NewServer lc opts) w in
  (exists s, result o = inl s) <->
  (exists c0, (h _ liteconfig_NewDefaultConfig w).1 = inl c0) /\
  failures (trace o) = [].
Proof.
  rewrite NewServer_pieces. unfold schema_branch, after_schema.
  explore h.
  all: split;
    [ intros [? ?]; first [discriminate | split; [eauto|reflexivity]]
    | intros [[? ?] ?]; first [discriminate | eauto] ].
Qed.

(** X3. [NewServer] stops at the first step that fails: a run shows at most
    one failure, and the failing call is the last call of the run. *)
Theorem NewServer_stops_at_first_failure
    {W} (h : handler W) (lc : liteconfig.Package) (opts : list ServerOption)
    (w : W) (step : Step) (cause : error) :
  let tr := trace (run h (NewServer lc opts) w) in
  (step, cause) ∈ failures tr ->
  failures tr = [(step, cause)] /\
  failure_of <$> last tr = Some (Some (step, cause)).
Proof.
  rewrite NewServer_pieces. unfold schema_branch, after_schema.
  explore h.
  all: intros Hin; try (inversion Hin; fail).
  all: apply list_elem_of_singleton in Hin; injection Hin as -> ->.
  all: split; reflexivity.
Qed.

Lemma NewServer_stops_at_first_failure_witness :
  let w := Sim.with_createNamespaces (Some (errorString "locked")) Sim.fresh in
  kinds (trace (run Sim.answer (NewServer Sim.lc []) w))
    = [K_NewDefaultConfig; K_Stat; K_SetupSchema; K_CreateNamespaces] /\
  failures (trace (run Sim.answer (NewServer Sim.lc []) w))
    = [(NamespaceCreation, errorString "locked")].
Proof.
  split; [reflexivity|].
  apply (NewServer_stops_at_first_failure Sim.answer Sim.lc []
           (Sim.with_createNamespaces (Some (errorString "locked")) Sim.fresh)
           NamespaceCreation (errorString "locked")).
  vm_compute. constructor.
Defined.

(** X4. [NewServer] calls each external function at most once and in a fixed
    order: the default configuration first, then the file query, schema
    setup, namespace creation, the authorizer and the claim mapper, with
    some of them left out.  It never reads the clock, builds a client, or
    starts or stops the wrapped server. *)
Theorem NewServer_call_order
    {W} (h : handler W) (lc : liteconfig.Package) (opts : list ServerOption)
    (w : W) :
  let ks := kinds (trace (run h (NewServer lc opts) w)) in
  ks `sublist_of`
    [K_NewDefaultConfig; K_Stat; K_SetupSchema; K_CreateNamespaces;
     K_GetAuthorizer; K_GetClaimMapper] /\
  head ks = Some K_NewDefaultConfig.
Proof.
  rewrite NewServer_pieces. unfold schema_branch, after_schema.
  explore h.
  all: split; [repeat constructor|reflexivity].
Qed.

(** ** [NewServer]: what reaches the wrapped server *)

(** X5. When [NewServer] returns a server, that server wraps
    [temporal.NewServer] applied to the six fixed options (the converted
    configuration, all services, the configuration's logger, the authorizer
    and the claim mapper that the authorization package answered with, and a
    no-op dynamic configuration client), followed by the interrupt option
    when the configuration has one and by nothing otherwise; its frontend
    address is the converted configuration's public-client address and it
    keeps the configuration the options produced. *)
Theorem NewServer_builds_server_from_answers
    {W} (h : handler W) (lc : liteconfig.Package) (opts : list ServerOption)
    (w : W) (s : Server) :
  let o := run h (NewServer lc opts) w in
  result o = inl s ->
  exists c0 authorizer claimMapper,
    (h _ liteconfig_NewDefaultConfig w).1 = inl c0 /\
    let c := apply_opts opts c0 in
    Authorizer_answers (trace o) = [inl authorizer] /\
    ClaimMapper_answers (trace o) = [inl claimMapper] /\
    server_options s =
      [ temporal.WithConfig (liteconfig.Convert lc c);
        temporal.ForServices temporal.Services;
        temporal.WithLogger (liteconfig.Logger c);
        temporal.WithAuthorizer authorizer;
        temporal.WithClaimMapper (fun _ => claimMapper);
        temporal.WithDynamicConfigClient temporal.NoopClient ]
      ++ match liteconfig.InterruptOn c with
         | Some interruptOn => [interruptOn]
         | None => []
         end /\
    frontendHostPort s
      = config.HostPort (config.Config_PublicClient (liteconfig.Convert lc c)) /\
    config_ s = c.
Proof.
  rewrite NewServer_pieces. unfold schema_branch, after_schema.
  explore h.
  all: intros Hs; try discriminate Hs; injection Hs as <-.
  all: do 3 eexists; split; [reflexivity|]; cbn.
  all: destruct (liteconfig.InterruptOn _); repeat split; reflexivity.
Qed.

(** With [WithInterruptOn], the server gets seven options and the interrupt
    on the given channel is the last. *)
Lemma NewServer_builds_server_from_answers_witness :
  exists s,
    result (run Sim.answer (NewServer Sim.lc [WithInterruptOn (ChanRef 4)])
              Sim.fresh) = inl s /\
    length (server_options s) = 7%nat /\
    last (server_options s) = Some (temporal.InterruptOn (ChanRef 4)).
Proof.
  destruct (result (run Sim.answer (NewServer Sim.lc [WithInterruptOn (ChanRef 4)])
                      Sim.fresh)) as [s|err] eqn:Hr; [|discriminate Hr].
  exists s. split; [reflexivity|].
  destruct (NewServer_builds_server_from_answers Sim.answer Sim.lc
              [WithInterruptOn (ChanRef 4)] Sim.fresh s Hr)
    as (c0 & a & m & Hc & _ & _ & Ho & _).
  injection Hc as <-. rewrite Ho. split; reflexivity.
Defined.

Lemma NewServer_authorization_calls {W} (h : handler W) lc opts w c0 :
  (h _ liteconfig_NewDefaultConfig w).1 = inl c0 ->
  let c := apply_opts opts c0 in
  let tr := trace (run h (NewServer lc opts) w) in
  let a := config.Global_Authorization (config.Config_Global (liteconfig.Convert lc c)) in
  GetAuthorizer_calls tr `sublist_of` [a] /\
  GetClaimMapper_calls tr `sublist_of` [(a, liteconfig.Logger c)].
Proof.
  rewrite NewServer_pieces. unfold schema_branch, after_schema.
  explore h.
  all: intros H0; try discriminate H0; injection H0 as ->.
  all: split; repeat constructor.
Qed.

Lemma NewServer_server_logger {W} (h : handler W) lc opts w c0 s :
  (h _ liteconfig_NewDefaultConfig w).1 = inl c0 ->
  result (run h (NewServer lc opts) w) = inl s ->
  server_options s !! 2%nat
    = Some (temporal.WithLogger (liteconfig.Logger (apply_opts opts c0))).
Proof.
  rewrite NewServer_pieces. unfold schema_branch, after_schema.
  explore h.
  all: intros H0; try discriminate H0; injection H0 as ->.
  all: intros Hs; try discriminate Hs; injection Hs as <-.
  all: cbn; destruct (liteconfig.InterruptOn _); reflexivity.
Qed.

(** X6. The authorizer and the claim mapper are both asked for with the
    authorization section of the converted configuration, and the claim
    mapper with the configuration's logger; so the logger of the last
    [WithLogger] among the options is the one the claim mapper gets and the
    one the wrapped server gets. *)
Theorem WithLogger_reaches_claim_mapper_and_server
    {W} (h : handler W) (lc : liteconfig.Package)
    (pre post : list Combinator) (logger : log.Logger)
    (w : W) (c0 : liteconfig.Config) :
  (h _ liteconfig_NewDefaultConfig w).1 = inl c0 ->
  untouched F_Logger post = true ->
  let opts := denote <$> pre ++ CWithLogger logger :: post in
  let c := apply_opts opts c0 in
  let o := run h (NewServer lc opts) w in
  let a := config.Global_Authorization (config.Config_Global (liteconfig.Convert lc c)) in
  GetAuthorizer_calls (trace o) `sublist_of` [a] /\
  GetClaimMapper_calls (trace o) `sublist_of` [(a, logger)] /\
  (forall s, result o = inl s ->
             server_options s !! 2%nat = Some (temporal.WithLogger logger)).
Proof.
  intros H0 Hpost opts c o a.
  assert (Hl : liteconfig.Logger c = logger).
  { subst c opts. rewrite fmap_app, apply_opts_app. cbn [fmap list_fmap].
    change (liteconfig.Logger ?x) with (get F_Logger x).
    change (apply_opts (denote (CWithLogger logger) :: ?l) ?x)
      with (apply_opts l (apply (denote (CWithLogger logger)) x)).
    rewrite apply_opts_frame by exact Hpost. reflexivity. }
  destruct (NewServer_authorization_calls h lc opts w c0 H0) as [Ha Hm].
  fold c o a in Ha, Hm. rewrite Hl in Hm.
  split; [exact Ha|split; [exact Hm|]].
  intros s Hs. rewrite <- Hl.
  exact (NewServer_server_logger h lc opts w c0 s H0 Hs).
Qed.

Lemma WithLogger_reaches_claim_mapper_and_server_witness :
  GetClaimMapper_calls
    (trace (run Sim.answer
              (NewServer Sim.lc
                 [WithLogger (log.LoggerRef 1); WithLogger (log.LoggerRef 2);
                  WithDynamicPorts])
              Sim.fresh))
  `sublist_of`
  [({| config.Authorizer := ""; config.ClaimMapper := "" |}, log.LoggerRef 2)].
Proof.
  destruct (WithLogger_reaches_claim_mapper_and_server Sim.answer Sim.lc
              [CWithLogger (log.LoggerRef 1)] [CWithDynamicPorts]
              (log.LoggerRef 2) Sim.fresh Sim.c0 eq_refl eq_refl)
    as (_ & Hm & _).
  exact Hm.
Defined.

(** X7. When the converted configuration has no data store under
    [liteconfig.PersistenceStoreName], [NewServer] does not fail by itself:
    it hands a nil SQL configuration to [sqlite.SetupSchema] and to
    [sqlite.CreateNamespaces], and the outcome is theirs. *)
Theorem NewServer_missing_store_passes_nil
    {W} (h : handler W) (lc : liteconfig.Package) (opts : list ServerOption)
    (w : W) (c0 : liteconfig.Config) :
  (h _ liteconfig_NewDefaultConfig w).1 = inl c0 ->
  config.DataStores
    (config.Config_Persistence (liteconfig.Convert lc (apply_opts opts c0)))
    !! liteconfig.PersistenceStoreName lc = None ->
  let tr := trace (run h (NewServer lc opts) w) in
  SetupSchema_calls tr `sublist_of` [None] /\
  (CreateNamespaces_calls tr).*1 `sublist_of` [None] /\
  (failures tr = [] -> exists s, result (run h (NewServer lc opts) w) = inl s).
Proof.
  intros H0 Hmiss.
  assert (Hnil : sqlConfig_of lc (apply_opts opts c0) = None).
  { unfold sqlConfig_of, config.DataStores_index. rewrite Hmiss. reflexivity. }
  revert H0 Hnil.
  rewrite NewServer_pieces. unfold schema_branch, after_schema.
  explore h.
  all: cbn; intros H0; try discriminate H0; injection H0 as ->.
  all: intros Hnil; rewrite ?Hnil.
  all: repeat split; try (repeat constructor; fail).
  all: first [discriminate | eauto].
Qed.

Lemma NewServer_missing_store_passes_nil_witness :
  SetupSchema_calls (trace (run Sim.answer (NewServer Sim.lc_no_store []) Sim.fresh))
    `sublist_of` [None] /\
  exists s, result (run Sim.answer (NewServer Sim.lc_no_store []) Sim.fresh) = inl s.
Proof.
  destruct (NewServer_missing_store_passes_nil Sim.answer Sim.lc_no_store []
              Sim.fresh Sim.c0 eq_refl eq_refl) as (Hs & _ & Hok).
  split; [exact Hs|]. apply Hok. reflexivity.
Defined.

(** ** The combinators, together *)

(** X8. After any sequence of combinators, the namespace list is the
    default's list followed by the arguments of every [WithNamespaces] of
    the sequence, in order; the other combinators do not disturb it and
    nothing is deduplicated. *)
Theorem namespaces_accumulate_over_any_sequence
    (ks : list Combinator) (c0 : liteconfig.Config) :
  liteconfig.Namespaces (apply_opts (denote <$> ks) c0)
  = liteconfig.Namespaces c0 ++ concat (namespace_arguments <$> ks).
Proof.
  revert c0. induction ks as [|k ks IH]; intros c0.
  - cbn. symmetry. apply app_nil_r.
  - change (apply_opts (denote <$> k :: ks) c0)
      with (apply_opts (denote <$> ks) (apply (denote k) c0)).
    rewrite IH. cbn [fmap list_fmap concat]. rewrite app_assoc. f_equal.
    destruct k; cbn; rewrite ?app_nil_r; reflexivity.
Qed.

(** X9. Two combinators that assign no common field commute; the two
    persistence combinators, which share the [Ephemeral] flag, do not. *)
Theorem combinators_on_disjoint_fields_commute
    (k1 k2 : Combinator) (c : liteconfig.Config) :
  (disjoint_writes k1 k2 = true ->
   apply (denote k1) (apply (denote k2) c)
   = apply (denote k2) (apply (denote k1) c)) /\
  (forall filepath,
     apply WithPersistenceDisabled (apply (WithDatabaseFilePath filepath) c)
     ≠ apply (WithDatabaseFilePath filepath) (apply WithPersistenceDisabled c)).
Proof.
  split.
  - destruct k1, k2; intros H; vm_compute in H; try discriminate H; reflexivity.
  - intros filepath Heq. apply (f_equal liteconfig.Ephemeral) in Heq.
    discriminate Heq.
Qed.

Lemma combinators_on_disjoint_fields_commute_witness :
  apply (WithFrontendPort 8000) (apply (WithNamespaces ["a"]) Sim.c0)
  = apply (WithNamespaces ["a"]) (apply (WithFrontendPort 8000) Sim.c0).
Proof.
  exact (proj1 (combinators_on_disjoint_fields_commute
                  (CWithFrontendPort 8000) (CWithNamespaces ["a"]) Sim.c0)
           eq_refl).
Defined.

(** X10. Applying a combinator a second time changes nothing, except for
    [WithNamespaces] with at least one namespace, which appends its
    arguments again; and [WithNamespaces()] with no argument leaves the
    configuration as it is. *)
Theorem combinator_idempotent_iff_appends_nothing
    (k : Combinator) (c : liteconfig.Config) :
  (apply (denote k) (apply (denote k) c) = apply (denote k) c
   <-> namespace_arguments k = []) /\
  apply (WithNamespaces []) c = c.
Proof.
  split.
  - destruct k as [| | | | |ns|]; cbn [namespace_arguments];
      try (split; reflexivity).
    split.
    + intros Heq. apply (f_equal liteconfig.Namespaces) in Heq. cbn in Heq.
      apply (f_equal length) in Heq. rewrite !length_app in Heq.
      apply nil_length_inv. lia.
    + intros ->. cbn. unfold liteconfig.set_Namespaces. cbn.
      rewrite !app_nil_r. reflexivity.
  - destruct c. cbn. unfold liteconfig.set_Namespaces. cbn.
    rewrite app_nil_r. reflexivity.
Qed.

(** ** The client factory, further *)

(** X11. The [HostPort] and the [ConnectionOptions] the caller supplies have
    no influence at all: two option values that agree on every other field
    give the same run of [NewClientWithOptions] (same calls, same answers,
    same result). *)
Theorem NewClientWithOptions_ignores_supplied_address
    {W} (h : handler W) (s : Server) (ctx : context.Context)
    (o1 o2 : client.Options) (w : W) :
  same_but_address o1 o2 ->
  run h (NewClientWithOptions s ctx o1) w
  = run h (NewClientWithOptions s ctx o2) w.
Proof.
  intros (Hn & Hl & Hi & Hc & Hx).
  destruct o1, o2. cbn in Hn, Hl, Hi, Hc, Hx. subst. reflexivity.
Qed.

Lemma NewClientWithOptions_ignores_supplied_address_witness :
  run Sim.answer
    (NewClientWithOptions Sim.server {| context.Deadline := None |} Sim.supplied)
    Sim.fresh
  = run Sim.answer
      (NewClientWithOptions Sim.server {| context.Deadline := None |}
         (client.set_HostPort "elsewhere:9"
            (client.set_ConnectionOptions client.ConnectionOptions_zero
               Sim.supplied)))
      Sim.fresh.
Proof.
  apply NewClientWithOptions_ignores_supplied_address.
  repeat split.
Defined.

(** X12. [NewClientWithOptions] returns exactly what [client.NewClient]
    answers, a failure included and not wrapped; it calls
    [client.NewClient] once, and reads the clock (once, before that call)
    only when the context has a deadline. *)
Theorem NewClientWithOptions_returns_client_answer
    {W} (h : handler W) (s : Server) (ctx : context.Context)
    (options : client.Options) (w : W) :
  let o := run h (NewClientWithOptions s ctx options) w in
  NewClient_answers (trace o) = [result o] /\
  kinds (trace o) =
    match context.Deadline ctx with
    | Some _ => [K_Now; K_NewClient]
    | None => [K_NewClient]
    end.
Proof.
  unfold NewClientWithOptions, timeoutFromContext.
  destruct (context.Deadline ctx) as [d|]; cbn.
  - destruct (h _ time_Now w) as [now w1]. cbn.
    destruct (h _ _ w1) as [r w2]. split; reflexivity.
  - destruct (h _ _ w) as [r w2]. split; reflexivity.
Qed.

(** X13. [NewClient] hands [client.NewClient] options in which only the
    namespace (the one asked for), the host and port (the facade's frontend
    address) and the health-check timeout are set; every other field is at
    its zero value. *)
Theorem NewClient_sets_namespace_and_address_only
    {W} (h : handler W) (s : Server) (ctx : context.Context)
    (namespace : string) (w : W) :
  exists t,
    NewClient_calls (trace (run h (NewClient s ctx namespace) w)) =
    [ {| client.HostPort := frontendHostPort s;
         client.Namespace := namespace;
         client.Logger := None;
         client.Identity := "";
         client.Converter := None;
         client.Interceptors := [];
         client.ConnectionOptions_ :=
           client.set_HealthCheckTimeout t client.ConnectionOptions_zero |} ] /\
    t = match context.Deadline ctx with
        | Some deadline => time.Sub deadline (h _ time_Now w).1
        | None => time.Minute
        end.
Proof.
  eexists. unfold NewClient. rewrite run_NewClientWithOptions.
  split; reflexivity.
Qed.

(** X14. A client made by a facade that [NewServer] returned is pointed at
    the public-client address of the configuration [liteconfig.Convert]
    produced from the default configuration and the options, whatever
    address the caller puts in the client options. *)
Theorem client_of_new_server_dials_converted_address
    {W} (h : handler W) (lc : liteconfig.Package) (opts : list ServerOption)
    (w : W) (s : Server) :
  result (run h (NewServer lc opts) w) = inl s ->
  exists c0,
    (h _ liteconfig_NewDefaultConfig w).1 = inl c0 /\
    forall W' (h' : handler W') ctx options w',
      client.HostPort
        <$> NewClient_calls (trace (run h' (NewClientWithOptions s ctx options) w'))
      = [config.HostPort
           (config.Config_PublicClient
              (liteconfig.Convert lc (apply_opts opts c0)))].
Proof.
  intros Hs.
  assert (Hhp : exists c0,
             (h _ liteconfig_NewDefaultConfig w).1 = inl c0 /\
             frontendHostPort s
             = config.HostPort
                 (config.Config_PublicClient
                    (liteconfig.Convert lc (apply_opts opts c0)))).
  { revert Hs. rewrite NewServer_pieces. unfold schema_branch, after_schema.
    explore h.
    all: cbn; intros Hs; try discriminate Hs; injection Hs as <-.
    all: eexists; split; reflexivity. }
  destruct Hhp as (c0 & H0 & Hhp). exists c0. split; [exact H0|].
  intros W' h' ctx options w'. rewrite run_NewClientWithOptions. cbn.
  rewrite Hhp. reflexivity.
Qed.

Lemma client_of_new_server_dials_converted_address_witness :
  exists s,
    result (run Sim.answer (NewServer Sim.lc [WithFrontendPort 8000]) Sim.fresh)
      = inl s /\
    client.HostPort
      <$> NewClient_calls
            (trace (run Sim.answer
                      (NewClientWithOptions s {| context.Deadline := None |}
                         Sim.supplied)
                      Sim.fresh))
    = ["127.0.0.1:7233"%string].
Proof.
  destruct (result (run Sim.answer (NewServer Sim.lc [WithFrontendPort 8000])
                      Sim.fresh)) as [s|err] eqn:Hr; [|discriminate Hr].
  exists s. split; [reflexivity|].
  destruct (client_of_new_server_dials_converted_address Sim.answer Sim.lc
              [WithFrontendPort 8000] Sim.fresh s Hr) as (c0 & _ & Hd).
  exact (Hd _ Sim.answer {| context.Deadline := None |} Sim.supplied Sim.fresh).
Defined.

(** X15. With a deadline, the health-check timeout always fits a
    [Duration]; it is positive exactly when the deadline is still ahead of
    the clock and zero exactly when the two coincide. *)
Theorem health_check_timeout_sign_follows_deadline
    {W} (h : handler W) (s : Server) (ctx : context.Context)
    (options : client.Options) (w : W) (deadline : time.Time) :
  context.Deadline ctx = Some deadline ->
  let now := (h _ time_Now w).1 in
  exists t,
    HealthCheckTimeouts (trace (run h (NewClientWithOptions s ctx options) w))
      = [t] /\
    time.minDuration <= t <= time.maxDuration /\
    (0 < t <-> now < deadline) /\
    (t = 0 <-> deadline = now).
Proof.
  intros Hd now. exists (time.Sub deadline now). split.
  { unfold HealthCheckTimeouts. rewrite run_NewClientWithOptions, Hd.
    reflexivity. }
  unfold time.Sub, time.minDuration, time.maxDuration.
  destruct (Z.ltb_spec (deadline - now) (- 2 ^ 63));
    [|destruct (Z.ltb_spec (2 ^ 63 - 1) (deadline - now))]; lia.
Qed.

Lemma health_check_timeout_sign_follows_deadline_witness :
  exists t,
    HealthCheckTimeouts
      (trace (run Sim.answer
                (NewClientWithOptions Sim.server
                   {| context.Deadline := Some (130 * time.Second) |}
                   Sim.supplied)
                Sim.fresh))
    = [t] /\ 0 < t.
Proof.
  destruct (health_check_timeout_sign_follows_deadline Sim.answer Sim.server
              {| context.Deadline := Some (130 * time.Second) |}
              Sim.supplied Sim.fresh (130 * time.Second) eq_refl)
    as (t & Ht & _ & Hpos & _).
  exists t. split; [exact Ht|]. apply Hpos. vm_compute. reflexivity.
Defined.
